(** * Machine predictive maintenance: the data-transformation stage

    A shallow embedding of [src/components/data_transformation.py]:
    the [LabelEncodingTransformer] class, the column router built by
    [DataTransformation.get_data_transformer_object] and the driver
    [DataTransformation.initiate_data_transformation].

    Python objects that the code mutates (the transformer's [encoders]
    dictionary, the copy a [transform] call fills in) are kept in explicit
    state; exceptions are values of [result].  The numerical estimators of
    scikit-learn and imbalanced-learn (imputers, scalers, SMOTETomek) stay
    abstract: they are the fields of the class [Sklearn]. *)

From Stdlib Require Import ZArith String Ascii List Sorted Permutation Lia.
From stdpp Require Import base tactics option list sorting gmap strings pretty.

Local Open Scope Z_scope.

(** ** Exceptions and results *)

(** The exceptions the modelled calls raise.  [CustomException] is the
    wrapper of [src.exception]: it keeps the exception it was built from. *)
Inductive exn : Type :=
| FileNotFoundError (path : string)
| KeyError (label : string)
| ValueError (msg : string)
| TypeError (msg : string)
| AttributeError (msg : string)
| NotFittedError
| CustomException (cause : exn).

Inductive result (A : Type) : Type :=
| Ok (a : A)
| Raise (e : exn).
Arguments Ok {A} a.
Arguments Raise {A} e.

#[global] Instance result_ret : MRet result := λ A a, Ok a.
#[global] Instance result_bind : MBind result := λ A B f m,
  match m with Ok a => f a | Raise e => Raise e end.
#[global] Instance result_fmap : FMap result := λ A B f m,
  match m with Ok a => Ok (f a) | Raise e => Raise e end.

Definition is_Ok {A} (r : result A) : Prop := ∃ a, r = Ok a.
Definition is_Raise {A} (r : result A) : Prop := ∃ e, r = Raise e.

(** [try: ... except Exception as e: raise CustomException(e, sys)] *)
Definition wrap_custom {A} (r : result A) : result A :=
  match r with Ok a => Ok a | Raise e => Raise (CustomException e) end.

(** A statement sequence that mutates an object of type [S] and may raise:
    the state reached so far survives the exception, as in Python. *)
Definition M (S A : Type) : Type := S → S * result A.

Definition m_ret {S A} (a : A) : M S A := λ s, (s, Ok a).
Definition m_bind {S A B} (m : M S A) (k : A → M S B) : M S B := λ s,
  match m s with
  | (s', Ok a) => k a s'
  | (s', Raise e) => (s', Raise e)
  end.
Definition m_lift {S A} (r : result A) : M S A := λ s, (s, r).
Definition m_modify {S} (f : S → S) : M S unit := λ s, (f s, Ok tt).

(** [for x in xs: body(x)] *)
Fixpoint for_each {S A} (xs : list A) (body : A → M S unit) : M S unit :=
  match xs with
  | [] => m_ret tt
  | x :: rest => m_bind (body x) (λ _, for_each rest body)
  end.

#[global] Instance M_ret {S} : MRet (M S) := λ A, m_ret.
#[global] Instance M_bind {S} : MBind (M S) := λ A B k m, m_bind m k.

(** ** Data *)

(** A cell of a table: a Python string, a number, or a missing value (NaN).
    Numbers are kept as integers: the arithmetic of the imputers and scalers
    is abstract, and the encoders only compare cells. *)
Inductive value : Type :=
| VStr (s : string)
| VNum (z : Z)
| VNaN.

#[global] Instance value_eq_dec : EqDecision value.
Proof. solve_decision. Defined.

Definition is_str (v : value) : bool := match v with VStr _ => true | _ => false end.
Definition is_num (v : value) : bool := match v with VNum _ => true | _ => false end.
Definition is_missing (v : value) : bool := match v with VNaN => true | _ => false end.

(** The order Python's [sorted] uses on cells of one kind: strings by code
    point, numbers by value.  Cells of different kinds are never compared by
    the model (see [LabelEncoder.unique]); the clauses for them only make the
    relation total. *)
Definition value_leb (a b : value) : bool :=
  match a, b with
  | VStr s, VStr t => String.leb s t
  | VNum x, VNum y => Z.leb x y
  | VNum _, VStr _ => true
  | VStr _, VNum _ => false
  | _, VNaN => true
  | VNaN, _ => false
  end.
Definition value_le (a b : value) : Prop := value_leb a b = true.
#[global] Instance value_le_dec : RelDecision value_le.
Proof. intros a b. unfold value_le. apply _. Defined.
Definition value_lt (a b : value) : Prop := value_le a b ∧ a ≠ b.

(** Column labels of a frame and positions of an array column: both are used
    as keys of the dictionary [self.encoders]. *)
Inductive key : Type :=
| KName (name : string)
| KIdx (i : nat).

#[global] Instance key_eq_dec : EqDecision key.
Proof. solve_decision. Defined.
#[global] Instance key_countable : Countable key.
Proof.
  apply (inj_countable'
           (λ k, match k with KName s => inl s | KIdx i => inr i end)
           (λ x, match x with inl s => KName s | inr i => KIdx i end)).
  by intros [].
Defined.

(** pandas column types.  [dt_object] and [dt_category] are the two the
    transformer encodes. *)
Inductive dtype : Type := dt_int64 | dt_float64 | dt_bool | dt_object | dt_category.

#[global] Instance dtype_eq_dec : EqDecision dtype.
Proof. solve_decision. Defined.

Record Series : Type := mkSeries { s_dtype : dtype; s_values : list value }.

(** A [pandas.DataFrame]: its number of rows (the index) and its labelled
    columns, in order. *)
Record DataFrame : Type := mkFrame {
  df_nrows : nat;
  df_data : list (key * Series)
}.

(** Element types of a numpy array.  Arrays of fixed-width strings or of
    booleans, where an item assignment converts what is stored, are outside
    the model: the pipeline hands the transformer object arrays. *)
Inductive adtype : Type := a_int64 | a_float64 | a_object.

#[global] Instance adtype_eq_dec : EqDecision adtype.
Proof. solve_decision. Defined.

(** A two-dimensional [numpy.ndarray], kept by columns: [X[:, i]] is
    [a_data !! i], [X.shape] is [(a_nrows, length a_data)]. *)
Record ndarray : Type := mkArray {
  a_dtype : adtype;
  a_nrows : nat;
  a_data : list (list value)
}.

(** The two kinds of input the transformer tells apart:
    [isinstance(X, pd.DataFrame)], or else an array. *)
Inductive table : Type :=
| Frame (df : DataFrame)
| Array (a : ndarray).

(** [X.columns] *)
Definition columns (df : DataFrame) : list key := (df_data df).*1.

(** [X.shape] *)
Definition shape (X : table) : nat * nat :=
  match X with
  | Frame df => (df_nrows df, length (df_data df))
  | Array a => (a_nrows a, length (a_data a))
  end.

Definition label_text (k : key) : string :=
  match k with KName s => s | KIdx i => pretty i end.

(** [X[col]].  A label that occurs twice selects a sub-frame, which has no
    [dtype] and which [LabelEncoder] rejects as not one-dimensional; the model
    raises at the access. *)
Definition getitem (df : DataFrame) (col : key) : result Series :=
  match filter (λ p, p.1 = col) (df_data df) with
  | [] => Raise (KeyError (label_text col))
  | [p] => Ok p.2
  | _ => Raise (AttributeError "DataFrame object has no attribute dtype")
  end.

(** [X_encoded[col] = codes]: the column keeps its place, its cells become
    the integer codes. *)
Definition setitem (df : DataFrame) (col : key) (codes : list value) : DataFrame :=
  mkFrame (df_nrows df)
    (map (λ p, if decide (p.1 = col) then (p.1, mkSeries dt_int64 codes) else p)
         (df_data df)).

(** [np.issubdtype(dtype, np.number)] *)
Definition is_number (d : adtype) : bool :=
  match d with a_int64 | a_float64 => true | a_object => false end.

(** [X[:, i]] for [i] in [range(X.shape[1])] *)
Definition getcol (a : ndarray) (i : nat) : list value := default [] (a_data a !! i).

(** [X_encoded[:, i] = codes] *)
Definition setcol (a : ndarray) (i : nat) (codes : list value) : ndarray :=
  mkArray (a_dtype a) (a_nrows a) (<[i := codes]> (a_data a)).

(** ** sklearn.preprocessing.LabelEncoder *)

Module LabelEncoder.

(** Modelled from the spec: [sklearn.preprocessing.LabelEncoder], which the
    repository imports and does not define.  Fitting learns "a sorted-order
    integer mapping over the distinct values observed"; transforming replaces
    a value by its position in that order and "fails (raises) if [transform]
    encounters a value absent from the mapping learned at fit time". *)
Record t : Type := mk { classes_ : option (list value) }.

(** [LabelEncoder()]: nothing learned yet. *)
Definition init : t := mk None.

(** The distinct values in sorted order, missing values last.  Python cannot
    order a string against a number: [sorted] raises [TypeError]. *)
Definition unique (y : list value) : result (list value) :=
  let uniques_set := remove_dups y in
  let present := filter (λ v, is_missing v = false) uniques_set in
  let missing := filter (λ v, is_missing v = true) uniques_set in
  if forallb is_str present || forallb is_num present
  then Ok (merge_sort value_le present ++ missing)
  else Raise (TypeError "argument must be uniformly strings or numbers").

Definition fit (self : t) (y : list value) : result t :=
  classes ← unique y; Ok (mk (Some classes)).

(** Position of [v] in the learned classes. *)
Fixpoint index_of (v : value) (classes : list value) : option nat :=
  match classes with
  | [] => None
  | c :: rest => if decide (c = v) then Some 0%nat else S <$> index_of v rest
  end.

Definition encode (classes : list value) (v : value) : result value :=
  match index_of v classes with
  | Some i => Ok (VNum (Z.of_nat i))
  | None => Raise (ValueError "y contains previously unseen labels")
  end.

Fixpoint encode_all (classes : list value) (y : list value) : result (list value) :=
  match y with
  | [] => Ok []
  | v :: rest => c ← encode classes v; cs ← encode_all classes rest; Ok (c :: cs)
  end.

Definition transform (self : t) (y : list value) : result (list value) :=
  match classes_ self with
  | None => Raise NotFittedError
  | Some classes => encode_all classes y
  end.

(** [fit_transform(y)]: the fitted encoder and the codes of [y]. *)
Definition fit_transform (self : t) (y : list value) : result (t * list value) :=
  self' ← fit self y; codes ← transform self' y; Ok (self', codes).

End LabelEncoder.

(** ** The heap of tables *)

(** Python passes tables by reference.  A [heap] holds the tables that are
    alive; [X.copy()] allocates a new one. *)
Abbreviation loc := positive (only parsing).
Abbreviation heap := (gmap loc table) (only parsing).

Definition deref (x : loc) : M heap table := λ h,
  match h !! x with
  | Some X => (h, Ok X)
  | None => (h, Raise (ValueError "dangling reference"))
  end.

Definition frame_at (x : loc) : M heap DataFrame :=
  X ← deref x;
  match X with
  | Frame df => mret df
  | Array _ => m_lift (Raise (TypeError "not a DataFrame"))
  end.

Definition array_at (x : loc) : M heap ndarray :=
  X ← deref x;
  match X with
  | Array a => mret a
  | Frame _ => m_lift (Raise (TypeError "not an ndarray"))
  end.

(** A new object holding [X], at a reference not in use. *)
Definition alloc (X : table) : M heap loc := λ h,
  let l := fresh (dom h) in (<[l := X]> h, Ok l).

(** [X.copy()] *)
Definition copy (x : loc) : M heap loc :=
  X ← deref x; alloc X.

Definition store (l : loc) (X : table) : M heap unit :=
  m_modify (λ h : heap, <[l := X]> h).

(** ** The custom transformer *)

Module LabelEncodingTransformer.

Record t : Type := mk {
  encoders : gmap key LabelEncoder.t;
  original_columns : option (list string)
}.

(** [__init__]: [self.encoders = {}] *)
Definition init : t := mk ∅ None.

(** [self.encoders[col] = e] *)
Definition set_encoder (col : key) (e : LabelEncoder.t) : M t unit :=
  m_modify (λ self, mk (<[col := e]> (encoders self)) (original_columns self)).

Definition set_original_columns (names : list string) : M t unit :=
  m_modify (λ self, mk (encoders self) (Some names)).

(** [dtype == 'object' or dtype.name == 'category'] *)
Definition is_categorical (d : dtype) : bool :=
  match d with dt_object | dt_category => true | _ => false end.

(** [self.encoders[k] = LabelEncoder(); self.encoders[k].fit(y)] *)
Definition learn (k : key) (y : list value) : M t unit :=
  set_encoder k LabelEncoder.init;;
  enc ← m_lift (LabelEncoder.fit LabelEncoder.init y);
  set_encoder k enc.

Definition fit_frame (X : DataFrame) : M t unit :=
  for_each (columns X) (λ col,
    s ← m_lift (getitem X col);
    if is_categorical (s_dtype s) then learn col (s_values s) else mret tt).

Definition fit_array (X : ndarray) : M t unit :=
  let n := length (a_data X) in
  set_original_columns (map (λ i : nat, "col_" +:+ pretty i) (seq 0 n));;
  for_each (seq 0 n) (λ i,
    if negb (is_number (a_dtype X)) then learn (KIdx i) (getcol X i) else mret tt).

(** [fit(self, X)]: the transformer after the call, and whether it raised. *)
Definition fit (X : table) : M t unit :=
  match X with
  | Frame df => fit_frame df
  | Array a => fit_array a
  end.

Definition transform_frame (self : t) (x xe : loc) (cols : list key) : M heap unit :=
  for_each cols (λ col,
    match encoders self !! col with
    | Some enc =>
        X ← frame_at x;
        s ← m_lift (getitem X col);
        codes ← m_lift (LabelEncoder.transform enc (s_values s));
        X_encoded ← frame_at xe;
        store xe (Frame (setitem X_encoded col codes))
    | None => mret tt
    end).

Definition transform_array (self : t) (x xe : loc) (n : nat) : M heap unit :=
  for_each (seq 0 n) (λ i,
    match encoders self !! KIdx i with
    | Some enc =>
        X ← array_at x;
        codes ← m_lift (LabelEncoder.transform enc (getcol X i));
        X_encoded ← array_at xe;
        store xe (Array (setcol X_encoded i codes))
    | None => mret tt
    end).

(** [transform(self, X)]: [x] refers to the input; the reference returned is
    that of [X_encoded]. *)
Definition transform (self : t) (x : loc) : M heap loc :=
  X ← deref x;
  xe ← copy x;
  match X with
  | Frame df => transform_frame self x xe (columns df)
  | Array a => transform_array self x xe (length (a_data a))
  end;;
  mret xe.

(** The call on a table that nothing else refers to: the value returned. *)
Definition transformed (self : t) (X : table) : result table :=
  let '(h, r) := transform self 1%positive {[1%positive := X]} in
  xe ← r;
  match h !! xe with
  | Some Y => Ok Y
  | None => Raise (ValueError "dangling reference")
  end.

End LabelEncodingTransformer.

(** ** The estimator interface of scikit-learn *)

(** What [BaseEstimator] with [TransformerMixin] offers: [fit] learns a state
    from a table, [transform] applies it. *)
Record Transformer : Type := mkTransformer {
  fitted : Type;
  est_fit : table → result fitted;
  est_transform : fitted → table → result table
}.

(** [TransformerMixin.fit_transform]: [self.fit(X).transform(X)] *)
Definition fit_transform (T : Transformer) (X : table) : result (fitted T * table) :=
  st ← est_fit T X; Y ← est_transform T st X; Ok (st, Y).

(** [LabelEncodingTransformer()] as a pipeline step. *)
Definition LabelEncodingTransformer_step : Transformer := {|
  fitted := LabelEncodingTransformer.t;
  est_fit X :=
    match LabelEncodingTransformer.fit X LabelEncodingTransformer.init with
    | (self, Ok _) => Ok self
    | (_, Raise e) => Raise e
    end;
  est_transform := LabelEncodingTransformer.transformed
|}.

(** The library estimators the repository configures and calls.  Their
    arithmetic (medians, means, standard deviations, nearest neighbours) is
    not modelled; a fitted state, and whether a call raises, are whatever the
    library decides. *)
Inductive strategy : Type := median | most_frequent.

Class Sklearn : Type := {
  imputer_state : Type;
  SimpleImputer_fit : strategy → table → result imputer_state;
  SimpleImputer_transform : imputer_state → table → result ndarray;
  scaler_state : Type;
  StandardScaler_fit : bool → table → result scaler_state;
  StandardScaler_transform : scaler_state → table → result ndarray;
  (** a [numpy.random.RandomState] *)
  rng : Type;
  RandomState : Z → rng;
  (** SMOTE followed by the removal of Tomek links, drawing from [rng] *)
  SMOTETomek_resample : rng → ndarray → list value → result (ndarray * list value)
}.

Section estimators.
Context `{Sklearn}.

(** [SimpleImputer(strategy=...)] *)
Definition SimpleImputer (s : strategy) : Transformer := {|
  fitted := imputer_state;
  est_fit := SimpleImputer_fit s;
  est_transform st X := Array <$> SimpleImputer_transform st X
|}.

(** [StandardScaler(with_mean=...)] *)
Definition StandardScaler (with_mean : bool) : Transformer := {|
  fitted := scaler_state;
  est_fit := StandardScaler_fit with_mean;
  est_transform st X := Array <$> StandardScaler_transform st X
|}.

(** [sklearn.utils.check_random_state]: an integer seeds a generator of its
    own, [None] means numpy's global generator. *)
Definition check_random_state (seed : option Z) (global : rng) : rng :=
  match seed with
  | Some s => RandomState s
  | None => global
  end.

(** [SMOTETomek(random_state=...)] *)
Record SMOTETomek : Type := mkSMOTETomek { random_state : option Z }.

Definition fit_resample (self : SMOTETomek) (global : rng)
    (X : ndarray) (y : list value) : result (ndarray * list value) :=
  SMOTETomek_resample (check_random_state (random_state self) global) X y.

End estimators.

(** ** Pipeline and ColumnTransformer *)

Definition passthrough : Transformer := {|
  fitted := unit;
  est_fit _ := Ok tt;
  est_transform _ X := Ok X
|}.

(** Two steps in sequence: the second is fitted on what the first makes of
    the fit data. *)
Definition andThen (first rest : Transformer) : Transformer := {|
  fitted := fitted first * fitted rest;
  est_fit X :=
    s1 ← est_fit first X;
    X1 ← est_transform first s1 X;
    s2 ← est_fit rest X1;
    Ok (s1, s2);
  est_transform st X :=
    X1 ← est_transform first st.1 X;
    est_transform rest st.2 X1
|}.

(** [Pipeline(steps=[(name, estimator), ...])] *)
Fixpoint Pipeline (steps : list (string * Transformer)) : Transformer :=
  match steps with
  | [] => passthrough
  | (_, T) :: rest =>
      match rest with
      | [] => T
      | _ => andThen T (Pipeline rest)
      end
  end.

(** Result type of numpy's concatenation of two blocks. *)
Definition promote (d1 d2 : adtype) : adtype :=
  match d1, d2 with
  | a_object, _ | _, a_object => a_object
  | a_float64, _ | _, a_float64 => a_float64
  | a_int64, a_int64 => a_int64
  end.

Definition series_adtype (s : Series) : adtype :=
  match s_dtype s with
  | dt_int64 => a_int64
  | dt_float64 => a_float64
  | _ => a_object
  end.

(** [np.asarray(X)].  A frame becomes an array of the common type of its
    columns (a frame of booleans only is given [a_object]: the model has no
    boolean arrays). *)
Definition asarray (X : table) : ndarray :=
  match X with
  | Array a => a
  | Frame df =>
      mkArray (foldr (λ p, promote (series_adtype p.2)) a_int64 (df_data df))
              (df_nrows df) (map (λ p, s_values p.2) (df_data df))
  end.

(** [np.hstack([A, B])] *)
Definition hstack (A B : ndarray) : result ndarray :=
  if decide (a_nrows A = a_nrows B)
  then Ok (mkArray (promote (a_dtype A) (a_dtype B)) (a_nrows A) (a_data A ++ a_data B))
  else Raise (ValueError "all the input array dimensions must match exactly").

(** [np.c_[A, y]]: the vector [y] becomes the last column. *)
Definition c_ (A : ndarray) (y : list value) : result ndarray :=
  hstack A (mkArray a_int64 (length y) [y]).

Fixpoint select_columns (df : DataFrame) (cols : list key) : result (list (key * Series)) :=
  match cols with
  | [] => Ok []
  | c :: rest =>
      match getitem df c with
      | Ok s => ss ← select_columns df rest; Ok ((c, s) :: ss)
      | Raise _ => Raise (ValueError "A given column is not a column of the dataframe")
      end
  end.

(** The columns a [ColumnTransformer] entry names, in the order of the entry. *)
Definition select (X : table) (cols : list key) : result table :=
  match X with
  | Frame df => ss ← select_columns df cols; Ok (Frame (mkFrame (df_nrows df) ss))
  | Array _ =>
      Raise (ValueError "Specifying the columns using strings is only supported for dataframes")
  end.

(** [np.hstack(Xs)] *)
Fixpoint hstack_all (Xs : list ndarray) : result ndarray :=
  match Xs with
  | [] => Raise (ValueError "need at least one array to concatenate")
  | A :: rest =>
      match rest with
      | [] => Ok A
      | _ => R ← hstack_all rest; hstack A R
      end
  end.

(** [ColumnTransformer(transformers=[(name, T, cols), ...])]: every entry
    fits and applies its transformer [T] to the columns [cols] only; the
    blocks are stacked in the order of the entries.  Columns that no entry
    names are not passed on ([remainder='drop'], the default). *)
Fixpoint ct_fitted (transformers : list (string * Transformer * list key)) : Type :=
  match transformers with
  | [] => unit
  | (_, T, _) :: rest => (fitted T * ct_fitted rest)%type
  end.

Fixpoint ct_fit (transformers : list (string * Transformer * list key)) (X : table)
    : result (ct_fitted transformers) :=
  match transformers with
  | [] => Ok tt
  | (_, T, cols) :: rest =>
      Xs ← select X cols;
      s ← est_fit T Xs;
      r ← ct_fit rest X;
      Ok (s, r)
  end.

Fixpoint ct_blocks (transformers : list (string * Transformer * list key))
    : ct_fitted transformers → table → result (list ndarray) :=
  match transformers with
  | [] => λ _ _, Ok []
  | (_, T, cols) :: rest => λ st X,
      Xs ← select X cols;
      B ← est_transform T st.1 Xs;
      Bs ← ct_blocks rest st.2 X;
      Ok (asarray B :: Bs)
  end.

Definition ColumnTransformer (transformers : list (string * Transformer * list key))
    : Transformer := {|
  fitted := ct_fitted transformers;
  est_fit := ct_fit transformers;
  est_transform st X :=
    Xs ← ct_blocks transformers st X;
    match Xs with
    | [] => Ok (Array (mkArray a_float64 (shape X).1 []))
    | _ => Array <$> hstack_all Xs
    end
|}.

(** ** Reading and cutting frames *)

(** The files the driver can read, each already parsed by [pd.read_csv]. *)
Abbreviation filesystem := (gmap string DataFrame) (only parsing).

Definition read_csv (fs : filesystem) (path : string) : result DataFrame :=
  match fs !! path with
  | Some df => Ok df
  | None => Raise (FileNotFoundError path)
  end.

(** [df.drop(columns=cols, axis=1)] *)
Definition drop (df : DataFrame) (cols : list key) : result DataFrame :=
  match filter (λ c, c ∉ columns df) cols with
  | [] => Ok (mkFrame (df_nrows df) (filter (λ p, p.1 ∉ cols) (df_data df)))
  | c :: _ => Raise (KeyError (label_text c))
  end.

(** ** The driver *)

Module DataTransformation.
Section with_sklearn.
Context `{Sklearn}.
Local Open Scope string_scope.

(** [DataTransformationConfig.preprocessor_obj_file_path]:
    [os.path.join("artifacts", "preprocessor.pkl")], with the separator of
    the system the driver's paths are written for. *)
Definition preprocessor_obj_file_path : string := "artifacts/preprocessor.pkl".

Definition numerical_columns : list key :=
  [KName "Air temperature K"; KName "Process temperature K";
   KName "Rotational speed rpm"; KName "Torque Nm"; KName "Tool wear min"].

Definition categorical_columns : list key := [KName "Type"].

Definition target_column_name : key := KName "Failure Type".

Definition num_pipeline : Transformer :=
  Pipeline [("imputer", SimpleImputer median);
            ("scaler", StandardScaler true)].

Definition cat_pipeline : Transformer :=
  Pipeline [("imputer", SimpleImputer most_frequent);
            ("label_encoding", LabelEncodingTransformer_step);
            ("scaler", StandardScaler false)].

Definition preprocessor : Transformer :=
  ColumnTransformer [("num_pipeline", num_pipeline, numerical_columns);
                     ("cat_pipeline", cat_pipeline, categorical_columns)].

Definition get_data_transformer_object : result Transformer :=
  wrap_custom (Ok preprocessor).

(** [initiate_data_transformation(self, train_path, test_path)].  [global] is
    numpy's global random generator at the time of the call.  What the call
    prints and logs is not modelled. *)
Definition initiate_data_transformation (fs : filesystem) (global : rng)
    (train_path test_path : string) : result (ndarray * ndarray * string) :=
  wrap_custom (
    train_df ← read_csv fs train_path;
    test_df ← read_csv fs test_path;
    preprocessing_obj ← get_data_transformer_object;
    input_feature_train_df ← drop train_df [target_column_name];
    target_feature_train_df ← getitem train_df target_column_name;
    input_feature_test_df ← drop test_df [target_column_name];
    target_feature_test_df ← getitem test_df target_column_name;
    fitted_train ← fit_transform preprocessing_obj (Frame input_feature_train_df);
    input_feature_test_arr ←
      est_transform preprocessing_obj fitted_train.1 (Frame input_feature_test_df);
    encoded_train ←
      LabelEncoder.fit_transform LabelEncoder.init (s_values target_feature_train_df);
    target_test ←
      LabelEncoder.transform encoded_train.1 (s_values target_feature_test_df);
    let smote_tomek_obj := mkSMOTETomek (Some 42) in
    resampled ←
      fit_resample smote_tomek_obj global (asarray fitted_train.2) encoded_train.2;
    train_arr ← c_ resampled.1 resampled.2;
    test_arr ← c_ (asarray input_feature_test_arr) target_test;
    Ok (train_arr, test_arr, preprocessor_obj_file_path)).

End with_sklearn.
End DataTransformation.

(** ** Predicates used by the statements *)

(** [classes] lists the distinct values of [y], each once, in sorted order. *)
Definition sorted_distinct (y classes : list value) : Prop :=
  NoDup classes ∧ (∀ v, v ∈ classes ↔ v ∈ y) ∧ StronglySorted value_le classes.

(** Encoding with [classes] is a bijection between the values of [y] and the
    integers [0 .. length classes - 1], and it follows the order of values. *)
Definition codes_bijective (y classes : list value) : Prop :=
  (∀ v, v ∈ y →
     ∃ i, LabelEncoder.encode classes v = Ok (VNum i) ∧
          0 ≤ i < Z.of_nat (length classes)) ∧
  (∀ i, 0 ≤ i < Z.of_nat (length classes) →
     ∃ v, v ∈ y ∧ LabelEncoder.encode classes v = Ok (VNum i)) ∧
  (∀ v w c, LabelEncoder.encode classes v = Ok c →
     LabelEncoder.encode classes w = Ok c → v = w) ∧
  (∀ v w i j, LabelEncoder.encode classes v = Ok (VNum i) →
     LabelEncoder.encode classes w = Ok (VNum j) → value_lt v w → i < j).

(** The column [q] is what [transform] makes of the column [p]: the codes of
    its values when the label has an encoder, [p] itself otherwise. *)
Definition encodes_series (self : LabelEncodingTransformer.t) (p q : key * Series) : Prop :=
  q.1 = p.1 ∧
  match LabelEncodingTransformer.encoders self !! p.1 with
  | Some enc => ∃ codes, LabelEncoder.transform enc (s_values p.2) = Ok codes ∧
                  q.2 = mkSeries dt_int64 codes
  | None => q.2 = p.2
  end.

(** The table [Y] is [X] with every column that has an encoder replaced by
    the codes of its values, and every other column as it is in [X]. *)
Definition encodes (self : LabelEncodingTransformer.t) (X Y : table) : Prop :=
  match X, Y with
  | Frame df, Frame dfY =>
      df_nrows dfY = df_nrows df ∧
      Forall2 (encodes_series self) (df_data df) (df_data dfY)
  | Array a, Array aY =>
      a_dtype aY = a_dtype a ∧ a_nrows aY = a_nrows a ∧
      length (a_data aY) = length (a_data a) ∧
      ∀ i c, a_data a !! i = Some c →
        match LabelEncodingTransformer.encoders self !! KIdx i with
        | Some enc => ∃ codes, LabelEncoder.transform enc c = Ok codes ∧
                        a_data aY !! i = Some codes
        | None => a_data aY !! i = Some c
        end
  | _, _ => False
  end.

(** A column of [X] that has an encoder and holds a value the encoder has
    not learned. *)
Definition has_unseen (self : LabelEncodingTransformer.t) (X : table) : Prop :=
  ∃ k enc classes y v,
    LabelEncodingTransformer.encoders self !! k = Some enc ∧
    LabelEncoder.classes_ enc = Some classes ∧
    match X with
    | Frame df => ∃ s, (k, s) ∈ df_data df ∧ y = s_values s
    | Array a => ∃ i, k = KIdx i ∧ a_data a !! i = Some y
    end ∧
    v ∈ y ∧ v ∉ classes.

(** Every encoder of the dictionary has been fitted. *)
Definition fitted_transformer (self : LabelEncodingTransformer.t) : Prop :=
  ∀ k enc, LabelEncodingTransformer.encoders self !! k = Some enc →
    is_Some (LabelEncoder.classes_ enc).

(** The labels of a frame are pairwise distinct (as [pd.read_csv] makes
    them); an array has positions, which always are. *)
Definition distinct_labels (X : table) : Prop :=
  match X with
  | Frame df => NoDup (columns df)
  | Array _ => True
  end.

(** The cells stored under the key [k]: the column labelled [k] of a frame,
    the column at position [i] of an array for [k = KIdx i]. *)
Definition column (X : table) (k : key) : option (list value) :=
  match X with
  | Frame df =>
      match getitem df k with
      | Ok s => Some (s_values s)
      | Raise _ => None
      end
  | Array a =>
      match k with
      | KIdx i => a_data a !! i
      | KName _ => None
      end
  end.

(** [fit] on [X] has nothing to learn at the key [k]: no column of [X] is
    stored under [k], or the column is not of a type [fit] encodes. *)
Definition not_refitted (X : table) (k : key) : Prop :=
  match X with
  | Frame df =>
      k ∉ columns df ∨
      ∃ s, getitem df k = Ok s ∧ LabelEncodingTransformer.is_categorical (s_dtype s) = false
  | Array a =>
      is_number (a_dtype a) = true ∨ ∀ i, k = KIdx i → (length (a_data a) ≤ i)%nat
  end.

(** Every column of a frame has one cell per row. *)
Definition frame_wf (df : DataFrame) : Prop :=
  ∀ p, p ∈ df_data df → length (s_values p.2) = df_nrows df.

(** The columns the driver reads: the five numeric ones, "Type" and the
    target. *)
Definition has_columns (df : DataFrame) : Prop :=
  ∀ k, k ∈ DataTransformation.numerical_columns ++ DataTransformation.categorical_columns
           ++ [DataTransformation.target_column_name] →
       k ∈ columns df.

(** What the library estimators are documented to keep: an imputer or a
    scaler returns one row per input row and one column per input column
    (an imputer does so unless a column has no observed value at all); the
    rebalancer returns rows with the columns of its input, one label per row,
    each label one of those it was given. *)
Class KeepsShape `{Sklearn} : Prop := {
  imputer_shape st X Y :
    SimpleImputer_transform st X = Ok Y → (a_nrows Y, length (a_data Y)) = shape X;
  scaler_shape st X Y :
    StandardScaler_transform st X = Ok Y → (a_nrows Y, length (a_data Y)) = shape X;
  resample_shape r X y X' y' :
    SMOTETomek_resample r X y = Ok (X', y') →
    length (a_data X') = length (a_data X) ∧ a_nrows X' = length y' ∧
    ∀ v, v ∈ y' → v ∈ y
}.

(** The same library with another rebalancer in place of SMOTETomek. *)
Definition with_rebalancer (L : Sklearn) (rng' : Type) (seed' : Z → rng')
    (resample' : rng' → ndarray → list value → result (ndarray * list value)) : Sklearn := {|
  imputer_state := @imputer_state L;
  SimpleImputer_fit := @SimpleImputer_fit L;
  SimpleImputer_transform := @SimpleImputer_transform L;
  scaler_state := @scaler_state L;
  StandardScaler_fit := @StandardScaler_fit L;
  StandardScaler_transform := @StandardScaler_transform L;
  rng := rng';
  RandomState := seed';
  SMOTETomek_resample := resample'
|}.

(** No missing value among the cells of a table. *)
Definition no_missing (X : table) : Prop :=
  match X with
  | Frame df => ∀ p, p ∈ df_data df → VNaN ∉ s_values p.2
  | Array a => ∀ c, c ∈ a_data a → VNaN ∉ c
  end.

(** ** Sample data *)

Module Sample.
Local Open Scope string_scope.

(** Three machines: a categorical column and a numeric one. *)
Definition machines : DataFrame :=
  mkFrame 3
    [(KName "Type", mkSeries dt_object [VStr "M"; VStr "L"; VStr "M"]);
     (KName "Torque Nm", mkSeries dt_float64 [VNum 40; VNum 46; VNum 49])].

(** The same machines with "Type" already numeric. *)
Definition machines_numeric : DataFrame :=
  mkFrame 3
    [(KName "Type", mkSeries dt_int64 [VNum 1; VNum 0; VNum 1]);
     (KName "Torque Nm", mkSeries dt_float64 [VNum 40; VNum 46; VNum 49])].

(** A machine of a type the others do not have. *)
Definition machines_unseen : DataFrame :=
  mkFrame 1
    [(KName "Type", mkSeries dt_object [VStr "H"]);
     (KName "Torque Nm", mkSeries dt_float64 [VNum 52])].

(** What the imputer hands the transformer inside the pipeline. *)
Definition types_array : ndarray :=
  mkArray a_object 3 [[VStr "M"; VStr "L"; VStr "M"]].

(** A library whose imputers and scalers hand their input on as an array
    and whose rebalancer returns the training set as it is (it raises, like
    the real one, when rows and labels differ in number). *)
Definition library : Sklearn := {|
  imputer_state := unit;
  SimpleImputer_fit _ _ := Ok tt;
  SimpleImputer_transform _ X := Ok (asarray X);
  scaler_state := unit;
  StandardScaler_fit _ _ := Ok tt;
  StandardScaler_transform _ X := Ok (asarray X);
  rng := Z;
  RandomState seed := seed;
  SMOTETomek_resample _ X y :=
    if decide (a_nrows X = length y) then Ok (X, y)
    else Raise (ValueError "Found input variables with inconsistent numbers of samples")
|}.

(** A data set as the CSV files hold it: an identifier, the five sensor
    readings, the machine type and the failure type. *)
Definition dataset (n : nat) (readings types failures : list value) : DataFrame :=
  mkFrame n
    [(KName "UDI", mkSeries dt_int64 readings);
     (KName "Air temperature K", mkSeries dt_float64 readings);
     (KName "Process temperature K", mkSeries dt_float64 readings);
     (KName "Rotational speed rpm", mkSeries dt_int64 readings);
     (KName "Torque Nm", mkSeries dt_float64 readings);
     (KName "Tool wear min", mkSeries dt_int64 readings);
     (KName "Type", mkSeries dt_object types);
     (KName "Failure Type", mkSeries dt_object failures)].

Definition train : DataFrame :=
  dataset 3 [VNum 1; VNum 2; VNum 3] [VStr "M"; VStr "L"; VStr "H"]
    [VStr "No Failure"; VStr "Heat Dissipation Failure"; VStr "No Failure"].

Definition test : DataFrame :=
  dataset 2 [VNum 5; VNum 6] [VStr "L"; VStr "L"]
    [VStr "No Failure"; VStr "Heat Dissipation Failure"].

(** A test split with a failure type that the training split lacks. *)
Definition test_unseen : DataFrame :=
  dataset 2 [VNum 5; VNum 6] [VStr "L"; VStr "L"]
    [VStr "No Failure"; VStr "Power Failure"].

Definition files : gmap string DataFrame :=
  {[ "train.csv" := train; "test.csv" := test; "test_unseen.csv" := test_unseen ]}.

End Sample.

(** ** Definitions used by the proofs *)

Ltac m_unfold :=
  unfold mbind, mret, M_bind, M_ret, m_bind, m_ret, m_lift, m_modify in *.

Section proof_definitions.
Import LabelEncodingTransformer.

(** The loop of [fit], for both kinds of table: [pre k] is what is to be
    learned at key [k], if anything. *)
Definition learn_body (pre : key → result (option (list value))) (k : key) : M t unit :=
  o ← m_lift (pre k);
  match o with
  | Some y => learn k y
  | None => mret tt
  end.

Definition frame_pre (X : DataFrame) (col : key) : result (option (list value)) :=
  s ← getitem X col;
  Ok (if is_categorical (s_dtype s) then Some (s_values s) else None).

Definition array_pre (X : ndarray) (k : key) : result (option (list value)) :=
  match k with
  | KIdx i => Ok (if is_number (a_dtype X) then None else Some (getcol X i))
  | KName _ => Ok None
  end.

(** The loops of [transform] as they act on [X_encoded] alone. *)
Definition encode_frame_body (self : t) (df : DataFrame) (col : key) : M DataFrame unit :=
  match encoders self !! col with
  | Some enc =>
      s ← m_lift (getitem df col);
      codes ← m_lift (LabelEncoder.transform enc (s_values s));
      m_modify (λ cur, setitem cur col codes)
  | None => mret tt
  end.

Definition encode_array_body (self : t) (a : ndarray) (i : nat) : M ndarray unit :=
  match encoders self !! KIdx i with
  | Some enc =>
      codes ← m_lift (LabelEncoder.transform enc (getcol a i));
      m_modify (λ cur, setcol cur i codes)
  | None => mret tt
  end.

Definition encode_table (self : t) (X : table) : table * result unit :=
  match X with
  | Frame df =>
      let '(cur, r) := for_each (columns df) (encode_frame_body self df) df in
      (Frame cur, r)
  | Array a =>
      let '(cur, r) := for_each (seq 0 (length (a_data a))) (encode_array_body self a) a in
      (Array cur, r)
  end.

(** After the labels [done], the columns with one of these labels are
    encoded and the others are still those of [X]. *)
Definition encoded_upto (self : t) (done : list key) (p q : key * Series) : Prop :=
  if decide (p.1 ∈ done) then encodes_series self p q else q = p.

(** The same for the columns of an array, by position. *)
Definition array_upto (self : t) (a : ndarray) (done : list nat) (cur : ndarray) : Prop :=
  ∀ i c, a_data a !! i = Some c →
    if decide (i ∈ done) then
      match encoders self !! KIdx i with
      | Some enc => ∃ codes, LabelEncoder.transform enc c = Ok codes ∧
                      a_data cur !! i = Some codes
      | None => a_data cur !! i = Some c
      end
    else a_data cur !! i = Some c.

End proof_definitions.

Section driver_stages.
Context `{Sklearn}.
Import DataTransformation.

(** What a call of the driver computes on its way. *)
Record Stages : Type := mkStages {
  train_df : DataFrame;
  test_df : DataFrame;
  train_features : DataFrame;
  test_features : DataFrame;
  train_target : Series;
  test_target : Series;
  fitted_obj : fitted preprocessor;
  train_matrix : table;
  test_matrix : table;
  target_classes : list value;
  train_codes : list value;
  test_codes : list value;
  resampled : ndarray * list value
}.

(** The stages of a call that returns [(train_arr, test_arr, _)], in the
    order of the source. *)
Definition Run (fs : gmap string DataFrame) (g : rng) (train_path test_path : string)
    (s : Stages) (train_arr test_arr : ndarray) : Prop :=
  fs !! train_path = Some (train_df s) ∧
  fs !! test_path = Some (test_df s) ∧
  drop (train_df s) [target_column_name] = Ok (train_features s) ∧
  getitem (train_df s) target_column_name = Ok (train_target s) ∧
  drop (test_df s) [target_column_name] = Ok (test_features s) ∧
  getitem (test_df s) target_column_name = Ok (test_target s) ∧
  est_fit preprocessor (Frame (train_features s)) = Ok (fitted_obj s) ∧
  est_transform preprocessor (fitted_obj s) (Frame (train_features s))
    = Ok (train_matrix s) ∧
  est_transform preprocessor (fitted_obj s) (Frame (test_features s))
    = Ok (test_matrix s) ∧
  LabelEncoder.unique (s_values (train_target s)) = Ok (target_classes s) ∧
  LabelEncoder.encode_all (target_classes s) (s_values (train_target s))
    = Ok (train_codes s) ∧
  LabelEncoder.encode_all (target_classes s) (s_values (test_target s))
    = Ok (test_codes s) ∧
  SMOTETomek_resample (RandomState 42) (asarray (train_matrix s)) (train_codes s)
    = Ok (resampled s) ∧
  c_ (resampled s).1 (resampled s).2 = Ok train_arr ∧
  c_ (asarray (test_matrix s)) (test_codes s) = Ok test_arr.

(** What the driver computes for the test split, with the rebalancer left
    out. *)
Definition test_split (fs : gmap string DataFrame) (train_path test_path : string)
    : result ndarray :=
  tr_df ← read_csv fs train_path;
  te_df ← read_csv fs test_path;
  ftr ← drop tr_df [target_column_name];
  ytr ← getitem tr_df target_column_name;
  fte ← drop te_df [target_column_name];
  yte ← getitem te_df target_column_name;
  st ← est_fit preprocessor (Frame ftr);
  Xte ← est_transform preprocessor st (Frame fte);
  classes ← LabelEncoder.unique (s_values ytr);
  codes ← LabelEncoder.encode_all classes (s_values yte);
  c_ (asarray Xte) codes.

End driver_stages.

(** * Properties *)

(** ** The order on cells *)

Lemma value_le_str s t : value_le (VStr s) (VStr t) ↔ String.le s t.
Proof. unfold value_le, String.le. simpl. by rewrite Is_true_true. Qed.

Lemma value_le_num x y : value_le (VNum x) (VNum y) ↔ x ≤ y.
Proof. unfold value_le. simpl. apply Z.leb_le. Qed.

#[global] Instance value_le_refl : Reflexive value_le.
Proof.
  intros [s|z|]; [by apply value_le_str | by apply value_le_num | done].
Qed.

#[global] Instance value_le_trans : Transitive value_le.
Proof.
  intros [s|x|] [t|y|] [u|z|]; try done.
  - rewrite !value_le_str. apply transitivity.
  - rewrite !value_le_num. lia.
Qed.

#[global] Instance value_le_total : Total value_le.
Proof.
  intros [s|x|] [t|y|]; try (by left); try (by right).
  - rewrite !value_le_str. apply total, _.
  - rewrite !value_le_num. lia.
Qed.

#[global] Instance value_le_antisym : AntiSymm (=) value_le.
Proof.
  intros [s|x|] [t|y|]; try done.
  - rewrite !value_le_str. intros ??. f_equal. by apply (anti_symm String.le).
  - rewrite !value_le_num. intros ??. f_equal. lia.
Qed.

(** ** LabelEncoder *)

Section label_encoder.
Import LabelEncoder.

Lemma index_of_Some v classes i :
  index_of v classes = Some i → classes !! i = Some v.
Proof.
  revert i. induction classes as [|c rest IH]; intros i; simpl; [done|].
  case_decide as Hc.
  - intros [= <-]. by subst.
  - destruct (index_of v rest) as [j|] eqn:Hj; simpl; [|done].
    intros [= <-]. simpl. by apply IH.
Qed.

Lemma index_of_None v classes : index_of v classes = None ↔ v ∉ classes.
Proof.
  induction classes as [|c rest IH]; simpl.
  - split; [intros _; apply not_elem_of_nil | done].
  - rewrite not_elem_of_cons. case_decide as Hc.
    + split; [done | intros [? _]; congruence].
    + destruct (index_of v rest) eqn:Hj; simpl.
      * split; [done|]. intros [_ Hn]. by apply IH in Hn.
      * split; [|done]. intros _. split; [congruence | by apply IH].
Qed.

Lemma index_of_lookup v classes i :
  NoDup classes → classes !! i = Some v → index_of v classes = Some i.
Proof.
  intros Hnd. revert i. induction Hnd as [|c rest Hc Hnd IH]; intros i; [done|].
  destruct i as [|i]; simpl.
  - intros [= ->]. by rewrite decide_True.
  - intros Hi. rewrite decide_False.
    + by rewrite (IH i Hi).
    + intros ->. apply Hc. by eapply list_elem_of_lookup_2.
Qed.

Lemma encode_Ok classes v c :
  encode classes v = Ok c ↔ ∃ i, index_of v classes = Some i ∧ c = VNum (Z.of_nat i).
Proof.
  unfold encode. destruct (index_of v classes) as [i|]; split.
  - intros [= <-]. eauto.
  - by intros (j & [= <-] & ->).
  - done.
  - by intros (j & ? & _).
Qed.

Lemma encode_Raise classes v : is_Raise (encode classes v) ↔ v ∉ classes.
Proof.
  rewrite <- index_of_None. unfold encode, is_Raise.
  destruct (index_of v classes); split; try done; eauto.
  by intros [e ?].
Qed.

Lemma encode_all_Ok classes y codes :
  encode_all classes y = Ok codes ↔ Forall2 (λ v c, encode classes v = Ok c) y codes.
Proof.
  revert codes. induction y as [|v rest IH]; intros codes; simpl.
  - split; [intros [= <-]; constructor | by inv 1].
  - destruct (encode classes v) as [c|e] eqn:Hc; simpl.
    + destruct (encode_all classes rest) as [cs|e] eqn:Hcs; simpl.
      * split; [intros [= <-]; constructor; [done | by apply IH]|].
        inv 1. f_equal. f_equal; [congruence|].
        match goal with H : Forall2 _ rest _ |- _ => apply IH in H end. congruence.
      * split; [done|]. inv 1.
        match goal with H : Forall2 _ rest _ |- _ => by apply IH in H end.
    + split; [done|]. inv 1. congruence.
Qed.

Lemma encode_all_length classes y codes :
  encode_all classes y = Ok codes → length codes = length y.
Proof. rewrite encode_all_Ok. intros Hf. symmetry. by eapply Forall2_length. Qed.

Lemma encode_all_known classes y :
  (∀ v, v ∈ y → v ∈ classes) → is_Ok (encode_all classes y).
Proof.
  induction y as [|v rest IH]; intros Hy; simpl; [by eexists|].
  destruct (index_of v classes) as [i|] eqn:Hi.
  - unfold encode. rewrite Hi. simpl.
    destruct IH as [cs ->]; [intros; apply Hy; by right|].
    by eexists.
  - apply index_of_None in Hi. destruct Hi. apply Hy. by left.
Qed.

Lemma encode_all_unseen classes y v :
  v ∈ y → v ∉ classes → is_Raise (encode_all classes y).
Proof.
  intros Hv Hn. induction y as [|w rest IH]; [by apply elem_of_nil in Hv|].
  simpl. apply elem_of_cons in Hv as [<-|Hv].
  - apply encode_Raise in Hn as [e ->]. by eexists.
  - destruct (encode classes w); simpl; [|by eexists].
    destruct (IH Hv) as [e ->]. by eexists.
Qed.

Lemma all_missing_sorted (l : list value) :
  Forall (λ v, v = VNaN) l → StronglySorted value_le l.
Proof.
  induction 1 as [|v l -> Hl IH]; constructor; [done|].
  eapply Forall_impl; [exact Hl|]. by intros w ->.
Qed.

Lemma unique_sorted_distinct y classes :
  unique y = Ok classes → sorted_distinct y classes.
Proof.
  unfold unique.
  set (present := filter (λ v, is_missing v = false) (remove_dups y)).
  set (missing := filter (λ v, is_missing v = true) (remove_dups y)).
  destruct (forallb is_str present || forallb is_num present); [|done].
  intros [= <-]. split; [|split].
  - apply NoDup_app. split; [|split].
    + rewrite merge_sort_Permutation. apply NoDup_filter, NoDup_remove_dups.
    + intros v. rewrite merge_sort_Permutation. unfold present, missing.
      rewrite !list_elem_of_filter. intros [Hp _] [Hm _]. congruence.
    + apply NoDup_filter, NoDup_remove_dups.
  - intros v. rewrite elem_of_app, merge_sort_Permutation. unfold present, missing.
    rewrite !list_elem_of_filter, elem_of_remove_dups.
    destruct (is_missing v); intuition congruence.
  - apply StronglySorted_app_2.
    + intros v w _ Hw. apply list_elem_of_filter in Hw as [Hw _].
      destruct w; try done. by destruct v.
    + apply StronglySorted_merge_sort; apply _.
    + apply all_missing_sorted, Forall_forall. intros v Hv.
      apply list_elem_of_filter in Hv as [Hv _]. by destruct v.
Qed.

Lemma StronglySorted_lookup_le (l : list value) i j v w :
  StronglySorted value_le l → l !! i = Some v → l !! j = Some w →
  (i ≤ j)%nat → value_le v w.
Proof.
  intros Hs. revert i j. induction Hs as [|a l Hs IH Ha]; intros i j; [done|].
  destruct i as [|i], j as [|j]; simpl; try lia.
  - intros [= <-] [= <-] _. reflexivity.
  - intros [= <-] Hj _. rewrite Forall_forall in Ha. apply Ha.
    by eapply list_elem_of_lookup_2.
  - intros Hi Hj Hle. apply (IH i j Hi Hj). lia.
Qed.

Lemma sorted_distinct_bijective y classes :
  sorted_distinct y classes → codes_bijective y classes.
Proof.
  intros (Hnd & Hin & Hsorted). repeat split.
  - intros v Hv. apply Hin in Hv.
    destruct (index_of v classes) as [i|] eqn:Hi.
    + exists (Z.of_nat i). split; [by apply encode_Ok; eauto|].
      apply index_of_Some, lookup_lt_Some in Hi. lia.
    + by apply index_of_None in Hi.
  - intros i Hi.
    destruct (lookup_lt_is_Some_2 classes (Z.to_nat i)) as [v Hv]; [lia|].
    exists v. split; [apply Hin; by eapply list_elem_of_lookup_2|].
    apply encode_Ok. exists (Z.to_nat i). split; [by apply index_of_lookup|].
    f_equal. lia.
  - intros v w c (i & Hi & ->)%encode_Ok (j & Hj & [= Hij])%encode_Ok.
    apply Nat2Z.inj in Hij as ->.
    apply index_of_Some in Hi, Hj. congruence.
  - intros v w i j (i' & Hi & [= ->])%encode_Ok (j' & Hj & [= ->])%encode_Ok [Hle Hne].
    apply index_of_Some in Hi, Hj.
    destruct (decide (i' < j')%nat); [lia|]. exfalso. apply Hne.
    apply (anti_symm value_le); [done|].
    eapply StronglySorted_lookup_le; [done|exact Hj|exact Hi|lia].
Qed.

Lemma fit_Ok self y enc :
  fit self y = Ok enc ↔ ∃ classes, unique y = Ok classes ∧ enc = mk (Some classes).
Proof.
  unfold fit. destruct (unique y) as [classes|e]; simpl; split.
  - intros [= <-]. eauto.
  - by intros (? & [= <-] & ->).
  - done.
  - by intros (? & ? & _).
Qed.

End label_encoder.

(** ** Loops *)

Lemma for_each_cons {S A} (x : A) (xs : list A) (body : A → M S unit) (s : S) :
  for_each (x :: xs) body s =
  match body x s with
  | (s', Ok _) => for_each xs body s'
  | (s', Raise e) => (s', Raise e)
  end.
Proof. reflexivity. Qed.

Lemma for_each_ext {S A} (xs : list A) (body body' : A → M S unit) (s : S) :
  (∀ x s, x ∈ xs → body x s = body' x s) →
  for_each xs body s = for_each xs body' s.
Proof.
  revert s. induction xs as [|x xs IH]; intros s Hb; [done|].
  rewrite !for_each_cons, <- Hb by left.
  destruct (body x s) as [s' [[]|e]]; [|done].
  apply IH. intros ???. apply Hb. by right.
Qed.

Lemma for_each_fmap {S A B} (f : A → B) (xs : list A) (body : B → M S unit) (s : S) :
  for_each (f <$> xs) body s = for_each xs (λ x, body (f x)) s.
Proof.
  revert s. induction xs as [|x xs IH]; intros s; [done|].
  simpl. unfold m_bind. destruct (body (f x) s) as [s' [[]|e]]; [apply IH | done].
Qed.

(** What every iteration preserves holds when the loop stops, whether it
    ends or raises. *)
Lemma for_each_invariant {S A} (I : S → Prop) (xs : list A) (body : A → M S unit) s s' r :
  (∀ x s s' r, x ∈ xs → I s → body x s = (s', r) → I s') →
  I s → for_each xs body s = (s', r) → I s'.
Proof.
  revert s. induction xs as [|x xs IH]; intros s Hb Hs; simpl.
  - by intros [= <- _].
  - unfold m_bind. destruct (body x s) as [s1 [[]|e]] eqn:Hx.
    + apply IH; [intros y s2 s3 r2 Hy; apply Hb; by right |].
      eapply Hb; [by left | done | done].
    + intros [= <- _]. eapply Hb; [by left | done | done].
Qed.

(** ** LabelEncodingTransformer.fit *)

Section transformer_fit.
Import LabelEncodingTransformer.

Lemma learn_run k y self :
  learn k y self =
  match LabelEncoder.unique y with
  | Ok classes =>
      (mk (<[k := LabelEncoder.mk (Some classes)]> (encoders self)) (original_columns self), Ok tt)
  | Raise e =>
      (mk (<[k := LabelEncoder.init]> (encoders self)) (original_columns self), Raise e)
  end.
Proof.
  unfold learn, set_encoder, LabelEncoder.fit. m_unfold. simpl.
  destruct (LabelEncoder.unique y); simpl; [|done].
  by rewrite insert_insert_eq.
Qed.

Lemma fit_frame_learn X self :
  fit_frame X self = for_each (columns X) (learn_body (frame_pre X)) self.
Proof.
  unfold fit_frame. apply for_each_ext. intros col s _.
  unfold learn_body, frame_pre. m_unfold. unfold result_bind.
  destruct (getitem X col) as [ser|e]; [|done].
  by destruct (is_categorical (s_dtype ser)).
Qed.

Lemma fit_array_learn X self :
  fit_array X self =
  for_each (KIdx <$> seq 0 (length (a_data X))) (learn_body (array_pre X))
    (mk (encoders self)
        (Some (map (λ i : nat, "col_" +:+ pretty i) (seq 0 (length (a_data X)))))).
Proof.
  unfold fit_array, set_original_columns. m_unfold. simpl.
  rewrite for_each_fmap. apply for_each_ext. intros i s _.
  unfold learn_body, array_pre. m_unfold.
  by destruct (is_number (a_dtype X)).
Qed.

Lemma learn_body_other pre c k self self' r :
  learn_body pre c self = (self', r) → k ≠ c →
  encoders self' !! k = encoders self !! k.
Proof.
  unfold learn_body. m_unfold. destruct (pre c) as [[y|]|e]; try by intros [= <- _].
  rewrite learn_run. intros Hrun Hne.
  destruct (LabelEncoder.unique y); injection Hrun as <- _; simpl;
    by rewrite lookup_insert_ne.
Qed.

Lemma learn_body_grows pre c k self self' r :
  learn_body pre c self = (self', r) →
  is_Some (encoders self !! k) → is_Some (encoders self' !! k).
Proof.
  unfold learn_body. m_unfold. destruct (pre c) as [[y|]|e]; try by intros [= <- _].
  rewrite learn_run. intros Hrun Hk.
  destruct (LabelEncoder.unique y); injection Hrun as <- _; simpl;
    (destruct (decide (c = k)) as [->|];
     [rewrite lookup_insert_eq; eauto | by rewrite lookup_insert_ne]).
Qed.

Lemma learn_body_skip pre c self self' r :
  learn_body pre c self = (self', r) → (pre c = Ok None ∨ is_Raise (pre c)) →
  encoders self' = encoders self.
Proof.
  unfold learn_body. m_unfold. intros Hrun [Hp|[e Hp]]; rewrite Hp in Hrun;
    by injection Hrun as <- _.
Qed.

(** The keys processed by a completed loop hold what [pre] says; every other
    key is as before. *)
Lemma learn_loop_Ok pre cols self0 self :
  for_each cols (learn_body pre) self0 = (self, Ok tt) →
  ∀ k,
    (k ∈ cols → ∃ o, pre k = Ok o ∧
       match o with
       | Some y => ∃ classes, LabelEncoder.unique y = Ok classes ∧
                     encoders self !! k = Some (LabelEncoder.mk (Some classes))
       | None => encoders self !! k = encoders self0 !! k
       end) ∧
    (k ∉ cols → encoders self !! k = encoders self0 !! k).
Proof.
  revert self0. induction cols as [|c rest IH]; intros self0.
  - intros [= <-] k. split; [by intros ?%elem_of_nil | done].
  - rewrite for_each_cons.
    destruct (learn_body pre c self0) as [self1 [[]|e]] eqn:Hc; [|done].
    intros Hrest k. destruct (IH _ Hrest k) as [IHin IHout].
    assert (k ≠ c → encoders self1 !! k = encoders self0 !! k) as Hother
      by (intros; by eapply learn_body_other).
    split.
    + intros Hk. destruct (decide (k ∈ rest)) as [Hin|Hnin].
      * destruct (IHin Hin) as (o & Ho & Hres). exists o. split; [done|].
        destruct o as [y|]; [done|]. rewrite Hres.
        destruct (decide (k = c)) as [->|]; [|by apply Hother].
        f_equal. eapply learn_body_skip; eauto.
      * apply elem_of_cons in Hk as [->|]; [|done].
        rewrite (IHout Hnin). revert Hc. unfold learn_body. m_unfold.
        destruct (pre c) as [[y|]|e]; [| |done].
        -- rewrite learn_run.
           destruct (LabelEncoder.unique y) as [classes|] eqn:Hu; [|done].
           intros [= <-]. exists (Some y). split; [done|]. exists classes.
           split; [done|]. simpl. by rewrite lookup_insert_eq.
        -- intros [= <-]. by exists None.
    + intros Hk. apply not_elem_of_cons in Hk as [??].
      rewrite (IHout ltac:(done)). by apply Hother.
Qed.

(** A loop that never meets a failing [unique] completes. *)
Lemma learn_loop_completes pre cols self0 :
  (∀ k, k ∈ cols → ∃ o, pre k = Ok o ∧
     ∀ y, o = Some y → is_Ok (LabelEncoder.unique y)) →
  ∃ self, for_each cols (learn_body pre) self0 = (self, Ok tt).
Proof.
  revert self0. induction cols as [|c rest IH]; intros self0 Hpre; [by eexists|].
  rewrite for_each_cons.
  destruct (Hpre c ltac:(by left)) as (o & Ho & Hy).
  assert (∃ self1, learn_body pre c self0 = (self1, Ok tt)) as [self1 ->].
  { unfold learn_body. m_unfold. rewrite Ho. destruct o as [y|]; [|by eexists].
    rewrite learn_run. destruct (Hy y eq_refl) as [classes ->]. by eexists. }
  apply IH. intros k Hk. apply Hpre. by right.
Qed.

End transformer_fit.

(** ** Frames *)

Lemma getitem_Ok df col s :
  getitem df col = Ok s ↔ filter (λ p, p.1 = col) (df_data df) = [(col, s)].
Proof.
  unfold getitem.
  destruct (filter (λ p, p.1 = col) (df_data df)) as [|p [|q l]] eqn:Hf; split; try done.
  - intros [= <-]. f_equal.
    assert (p ∈ filter (λ p, p.1 = col) (df_data df)) as Hp by (rewrite Hf; by left).
    apply list_elem_of_filter in Hp as [<- _]. by destruct p.
  - by intros [= ->].
Qed.

Lemma getitem_elem_of df col s : getitem df col = Ok s → (col, s) ∈ df_data df.
Proof.
  rewrite getitem_Ok. intros Hf.
  assert ((col, s) ∈ filter (λ p, p.1 = col) (df_data df)) as Hp by (rewrite Hf; by left).
  by apply list_elem_of_filter in Hp as [_ ?].
Qed.

Lemma getitem_unique df col s s' :
  getitem df col = Ok s → (col, s') ∈ df_data df → s' = s.
Proof.
  rewrite getitem_Ok. intros Hf Hin.
  assert ((col, s') ∈ filter (λ p, p.1 = col) (df_data df)) as Hp
    by (by apply list_elem_of_filter).
  rewrite Hf in Hp. apply list_elem_of_singleton in Hp. congruence.
Qed.

Lemma getitem_absent df col :
  col ∉ columns df → getitem df col = Raise (KeyError (label_text col)).
Proof.
  intros Hn. unfold getitem.
  destruct (filter (λ p, p.1 = col) (df_data df)) as [|p l] eqn:Hf; [done|].
  assert (p ∈ filter (λ p, p.1 = col) (df_data df)) as Hp by (rewrite Hf; by left).
  apply list_elem_of_filter in Hp as [<- Hp]. destruct Hn.
  unfold columns. apply list_elem_of_fmap. eauto.
Qed.

Lemma filter_label_absent (l : list (key * Series)) col :
  col ∉ l.*1 → filter (λ p, p.1 = col) l = [].
Proof.
  induction l as [|[c x] l IH]; simpl; [done|].
  rewrite not_elem_of_cons. intros [Hne Hn]. rewrite filter_cons. simpl.
  rewrite decide_False by done. by apply IH.
Qed.

Lemma filter_label_NoDup (l : list (key * Series)) col s :
  NoDup l.*1 → (col, s) ∈ l → filter (λ p, p.1 = col) l = [(col, s)].
Proof.
  induction l as [|[c x] l IH]; simpl; [by intros _ ?%elem_of_nil|].
  rewrite NoDup_cons. intros [Hc Hnd] Hin. rewrite filter_cons. simpl.
  apply elem_of_cons in Hin as [[= <- <-]|Hin].
  - rewrite decide_True by done. f_equal. by apply filter_label_absent.
  - rewrite decide_False; [by apply IH|].
    intros ->. apply Hc. apply list_elem_of_fmap. by exists (col, s).
Qed.

Lemma getitem_NoDup df col s :
  NoDup (columns df) → (col, s) ∈ df_data df → getitem df col = Ok s.
Proof. intros Hnd Hin. apply getitem_Ok. by apply filter_label_NoDup. Qed.

Lemma setitem_columns df col codes : columns (setitem df col codes) = columns df.
Proof.
  unfold columns, setitem. simpl. rewrite <- list_fmap_compose.
  apply list_fmap_ext. intros i [c s] _. simpl. by case_decide.
Qed.

(** ** What [fit] learns *)

Section fit_result.
Import LabelEncodingTransformer.

Lemma fit_frame_Ok df self0 self :
  fit (Frame df) self0 = (self, Ok tt) →
  ∀ col,
    (∀ s, (col, s) ∈ df_data df →
       if is_categorical (s_dtype s)
       then ∃ classes, LabelEncoder.unique (s_values s) = Ok classes ∧
              encoders self !! col = Some (LabelEncoder.mk (Some classes))
       else encoders self !! col = encoders self0 !! col) ∧
    (col ∉ columns df → encoders self !! col = encoders self0 !! col).
Proof.
  simpl. rewrite fit_frame_learn. intros Hrun col.
  destruct (learn_loop_Ok _ _ _ _ Hrun col) as [Hin Hout]. split; [|done].
  intros s Hs.
  destruct Hin as (o & Ho & Hres).
  { unfold columns. apply list_elem_of_fmap. by exists (col, s). }
  unfold frame_pre in Ho.
  destruct (getitem df col) as [s'|e] eqn:Hg; simpl in Ho; [|done].
  injection Ho as <-. rewrite (getitem_unique _ _ _ _ Hg Hs).
  by destruct (is_categorical (s_dtype s')).
Qed.

Lemma fit_array_Ok a self0 self :
  fit (Array a) self0 = (self, Ok tt) →
  ∀ k,
    (∀ i c, k = KIdx i → a_data a !! i = Some c →
       if is_number (a_dtype a)
       then encoders self !! k = encoders self0 !! k
       else ∃ classes, LabelEncoder.unique c = Ok classes ∧
              encoders self !! k = Some (LabelEncoder.mk (Some classes))) ∧
    ((∀ i, k = KIdx i → length (a_data a) ≤ i)%nat →
       encoders self !! k = encoders self0 !! k).
Proof.
  simpl. rewrite fit_array_learn. intros Hrun k.
  destruct (learn_loop_Ok _ _ _ _ Hrun k) as [Hin Hout]. simpl in *. split.
  - intros i c -> Hc. destruct Hin as (o & Ho & Hres).
    { apply list_elem_of_fmap. exists i. split; [done|].
      apply elem_of_seq. apply lookup_lt_Some in Hc. lia. }
    simpl in Ho. injection Ho as <-. unfold getcol in Hres. rewrite Hc in Hres.
    by destruct (is_number (a_dtype a)).
  - intros Hk. apply Hout. intros (i & -> & Hi%elem_of_seq)%list_elem_of_fmap.
    specialize (Hk i eq_refl). lia.
Qed.

(** [fit] completes on a table with distinct labels whose encoded columns
    each hold cells of one kind. *)
Lemma fit_completes X self0 :
  distinct_labels X →
  (∀ k y, column X k = Some y → is_Ok (LabelEncoder.unique y)) →
  ∃ self, fit X self0 = (self, Ok tt).
Proof.
  intros Hnd Hsort. destruct X as [df|a]; simpl in *.
  - rewrite fit_frame_learn. apply learn_loop_completes.
    intros k (p & -> & Hp)%list_elem_of_fmap. destruct p as [k s]. simpl.
    unfold frame_pre. rewrite (getitem_NoDup _ _ _ Hnd Hp). simpl.
    eexists. split; [done|]. intros y Hy. apply (Hsort k).
    rewrite (getitem_NoDup _ _ _ Hnd Hp).
    destruct (is_categorical (s_dtype s)); congruence.
  - rewrite fit_array_learn. apply learn_loop_completes.
    intros k (i & -> & Hi%elem_of_seq)%list_elem_of_fmap. simpl.
    eexists. split; [done|]. intros y Hy. apply (Hsort (KIdx i)).
    destruct (lookup_lt_is_Some_2 (a_data a) i) as [c Hc]; [lia|].
    unfold getcol in Hy. rewrite Hc in Hy. rewrite Hc. simpl in Hy.
    destruct (is_number (a_dtype a)); congruence.
Qed.

End fit_result.

(** ** LabelEncodingTransformer.transform *)

Section transformer_transform.
Import LabelEncodingTransformer.

Lemma deref_run x h X : h !! x = Some X → deref x h = (h, Ok X).
Proof. unfold deref. by intros ->. Qed.

(** The heap-level loop writes to [xe] only, and what it writes is what the
    loop on [X_encoded] computes. *)
Lemma transform_frame_refines self x xe df cols h cur :
  x ≠ xe → h !! x = Some (Frame df) → h !! xe = Some (Frame cur) →
  transform_frame self x xe cols h =
  let '(cur', r) := for_each cols (encode_frame_body self df) cur in
  (<[xe := Frame cur']> h, r).
Proof.
  intros Hne. revert h cur. induction cols as [|c rest IH]; intros h cur Hx Hxe.
  - unfold transform_frame. simpl. unfold m_ret. by rewrite insert_id.
  - unfold transform_frame in *. rewrite !for_each_cons.
    unfold encode_frame_body at 1. destruct (encoders self !! c) as [enc|].
    + unfold frame_at, store. m_unfold. rewrite (deref_run _ _ _ Hx).
      destruct (getitem df c) as [s|e]; [|by rewrite insert_id].
      destruct (LabelEncoder.transform enc (s_values s)) as [codes|e];
        [|by rewrite insert_id].
      rewrite (deref_run _ _ _ Hxe).
      rewrite (IH _ (setitem cur c codes)).
      * destruct (for_each rest _ _) as [cur' r]. by rewrite insert_insert_eq.
      * by rewrite lookup_insert_ne.
      * by rewrite lookup_insert_eq.
    + m_unfold. by apply IH.
Qed.

Lemma transform_array_refines self x xe a idx h cur :
  x ≠ xe → h !! x = Some (Array a) → h !! xe = Some (Array cur) →
  for_each idx (λ i,
    match encoders self !! KIdx i with
    | Some enc =>
        X ← array_at x;
        codes ← m_lift (LabelEncoder.transform enc (getcol X i));
        X_encoded ← array_at xe;
        store xe (Array (setcol X_encoded i codes))
    | None => mret tt
    end) h =
  let '(cur', r) := for_each idx (encode_array_body self a) cur in
  (<[xe := Array cur']> h, r).
Proof.
  intros Hne. revert h cur. induction idx as [|c rest IH]; intros h cur Hx Hxe.
  - simpl. unfold m_ret. by rewrite insert_id.
  - rewrite !for_each_cons.
    unfold encode_array_body at 1. destruct (encoders self !! KIdx c) as [enc|].
    + unfold array_at, store. m_unfold. rewrite (deref_run _ _ _ Hx).
      destruct (LabelEncoder.transform enc (getcol a c)) as [codes|e];
        [|by rewrite insert_id].
      rewrite (deref_run _ _ _ Hxe).
      rewrite (IH _ (setcol cur c codes)).
      * destruct (for_each rest _ _) as [cur' r]. by rewrite insert_insert_eq.
      * by rewrite lookup_insert_ne.
      * by rewrite lookup_insert_eq.
    + m_unfold. by apply IH.
Qed.

(** [transform] allocates one table, at a reference that was not in use, and
    touches nothing else. *)
Lemma transform_run self x h X :
  h !! x = Some X →
  transform self x h =
  let '(Y, r) := encode_table self X in
  (<[fresh (dom h) := Y]> h, (λ _, fresh (dom h)) <$> r).
Proof.
  intros Hx. unfold transform, copy, alloc. m_unfold.
  rewrite (deref_run _ _ _ Hx).
  set (xe := fresh (dom h)).
  assert (x ≠ xe) as Hne.
  { intros ->. apply (is_fresh (dom h)). apply elem_of_dom. by eexists. }
  assert (<[xe := X]> h !! x = Some X) as Hx' by (by rewrite lookup_insert_ne).
  assert (<[xe := X]> h !! xe = Some X) as Hxe by (by rewrite lookup_insert_eq).
  destruct X as [df|a]; simpl; rewrite (deref_run _ _ _ Hx); fold xe.
  - rewrite (transform_frame_refines _ _ _ _ _ _ _ Hne Hx' Hxe).
    destruct (for_each _ _ _) as [cur [[]|e]]; by rewrite insert_insert_eq.
  - unfold transform_array.
    rewrite (transform_array_refines _ _ _ _ _ _ _ Hne Hx' Hxe).
    destruct (for_each _ _ _) as [cur [[]|e]]; by rewrite insert_insert_eq.
Qed.

Lemma transformed_eq self X :
  transformed self X =
  let '(Y, r) := encode_table self X in (λ _, Y) <$> r.
Proof.
  unfold transformed. rewrite (transform_run _ _ _ X) by apply lookup_singleton_eq.
  destruct (encode_table self X) as [Y [[]|e]]; simpl; [|done].
  by rewrite lookup_insert_eq.
Qed.

End transformer_transform.

Section encode_loops.
Import LabelEncodingTransformer.

Lemma encode_frame_body_shape self df c cur cur' r :
  encode_frame_body self df c cur = (cur', r) →
  df_nrows cur' = df_nrows cur ∧ columns cur' = columns cur.
Proof.
  unfold encode_frame_body. m_unfold.
  destruct (encoders self !! c) as [enc|]; [|by intros [= <- _]].
  destruct (getitem df c) as [s|e]; [|by intros [= <- _]].
  destruct (LabelEncoder.transform enc (s_values s)) as [codes|e]; intros [= <- _]; [|done].
  split; [done | apply setitem_columns].
Qed.

Lemma encode_frame_loop_shape self df cols cur cur' r :
  for_each cols (encode_frame_body self df) cur = (cur', r) →
  df_nrows cur' = df_nrows cur ∧ columns cur' = columns cur.
Proof.
  apply (for_each_invariant
           (λ c, df_nrows c = df_nrows cur ∧ columns c = columns cur)); [|done].
  intros c s s' r' _ [<- <-]. apply encode_frame_body_shape.
Qed.

Lemma encode_array_body_shape self a i cur cur' r :
  encode_array_body self a i cur = (cur', r) →
  a_dtype cur' = a_dtype cur ∧ a_nrows cur' = a_nrows cur ∧
  length (a_data cur') = length (a_data cur).
Proof.
  unfold encode_array_body. m_unfold.
  destruct (encoders self !! KIdx i) as [enc|]; [|by intros [= <- _]].
  destruct (LabelEncoder.transform enc (getcol a i)) as [codes|e]; intros [= <- _]; [|done].
  simpl. by rewrite length_insert.
Qed.

Lemma encode_array_loop_shape self a idx cur cur' r :
  for_each idx (encode_array_body self a) cur = (cur', r) →
  a_dtype cur' = a_dtype cur ∧ a_nrows cur' = a_nrows cur ∧
  length (a_data cur') = length (a_data cur).
Proof.
  apply (for_each_invariant
           (λ c, a_dtype c = a_dtype cur ∧ a_nrows c = a_nrows cur ∧
                 length (a_data c) = length (a_data cur))); [|done].
  intros c s s' r' _ (<- & <- & <-). apply encode_array_body_shape.
Qed.

(** The shape of [X_encoded] is that of [X], also when the loop raises. *)
Lemma encode_table_shape self X Y r :
  encode_table self X = (Y, r) → shape Y = shape X.
Proof.
  destruct X as [df|a]; simpl.
  - destruct (for_each _ _ _) as [cur r'] eqn:Hloop. intros [= <- _].
    apply encode_frame_loop_shape in Hloop as [Hn Hc]. simpl.
    f_equal; [done|]. apply (f_equal length) in Hc.
    unfold columns in Hc. by rewrite !length_fmap in Hc.
  - destruct (for_each _ _ _) as [cur r'] eqn:Hloop. intros [= <- _].
    apply encode_array_loop_shape in Hloop as (_ & Hn & Hl). simpl. by f_equal.
Qed.

Lemma encode_frame_body_Ok self df done c cur cur' :
  Forall2 (encoded_upto self done) (df_data df) (df_data cur) →
  encode_frame_body self df c cur = (cur', Ok tt) →
  Forall2 (encoded_upto self (done ++ [c])) (df_data df) (df_data cur').
Proof.
  intros Hinv. unfold encode_frame_body. m_unfold.
  assert (∀ k, k ∈ done ++ [c] ↔ k ∈ done ∨ k = c) as Hiff.
  { intros k. by rewrite elem_of_app, list_elem_of_singleton. }
  destruct (encoders self !! c) as [enc|] eqn:Henc.
  - destruct (getitem df c) as [s|e] eqn:Hg; [|done].
    destruct (LabelEncoder.transform enc (s_values s)) as [codes|e] eqn:Hcodes; [|done].
    intros [= <-]. simpl. apply Forall2_fmap_r.
    apply Forall2_same_length_lookup. split; [by eapply Forall2_length|].
    intros i p q Hp Hq.
    pose proof (Forall2_lookup_lr _ _ _ _ _ _ Hinv Hp Hq) as Hpq.
    unfold encoded_upto in *. simpl.
    assert (q.1 = p.1) as Hlabel.
    { destruct (decide (p.1 ∈ done)); [by destruct Hpq | by subst]. }
    rewrite Hlabel. destruct (decide (p.1 = c)) as [Hc|Hc].
    + rewrite decide_True by (apply Hiff; auto).
      split; [done|]. simpl. rewrite Hc, Henc.
      exists codes. split; [|done]. destruct p as [k sp]. simpl in Hc. subst k.
      simpl. by rewrite (getitem_unique _ _ _ _ Hg (list_elem_of_lookup_2 _ _ _ Hp)).
    + destruct (decide (p.1 ∈ done)).
      * by rewrite decide_True by (apply Hiff; auto).
      * rewrite decide_False; [done | by intros [?|?]%Hiff].
  - intros [= <-]. eapply Forall2_impl; [exact Hinv|].
    intros p q. unfold encoded_upto.
    destruct (decide (p.1 ∈ done)).
    + by rewrite decide_True by (apply Hiff; auto).
    + intros ->. destruct (decide (p.1 = c)) as [Hc|Hc].
      * rewrite decide_True by (apply Hiff; auto). split; [done|]. by rewrite Hc, Henc.
      * rewrite decide_False; [done | by intros [?|?]%Hiff].
Qed.

Lemma encode_frame_loop_Ok self df cols done cur cur' :
  Forall2 (encoded_upto self done) (df_data df) (df_data cur) →
  for_each cols (encode_frame_body self df) cur = (cur', Ok tt) →
  Forall2 (encoded_upto self (done ++ cols)) (df_data df) (df_data cur').
Proof.
  revert done cur. induction cols as [|c rest IH]; intros done cur Hinv.
  - intros [= <-]. by rewrite app_nil_r.
  - rewrite for_each_cons.
    destruct (encode_frame_body self df c cur) as [cur1 [[]|e]] eqn:Hc; [|done].
    intros Hrest. rewrite cons_middle, app_assoc.
    eapply IH; [|exact Hrest]. by eapply encode_frame_body_Ok.
Qed.

Lemma encode_array_body_Ok self a done j cur cur' :
  length (a_data cur) = length (a_data a) →
  array_upto self a done cur →
  encode_array_body self a j cur = (cur', Ok tt) →
  array_upto self a (done ++ [j]) cur'.
Proof.
  intros Hlen Hinv. unfold encode_array_body. m_unfold.
  assert (∀ k, k ∈ done ++ [j] ↔ k ∈ done ∨ k = j) as Hiff.
  { intros k. by rewrite elem_of_app, list_elem_of_singleton. }
  destruct (encoders self !! KIdx j) as [enc|] eqn:Henc.
  - destruct (LabelEncoder.transform enc (getcol a j)) as [codes|e] eqn:Hcodes; [|done].
    intros [= <-] i c Hc. simpl. specialize (Hinv i c Hc).
    destruct (decide (i = j)) as [->|Hij].
    + rewrite decide_True by (apply Hiff; auto). rewrite Henc. exists codes.
      unfold getcol in Hcodes. rewrite Hc in Hcodes. split; [done|].
      apply list_lookup_insert_eq. rewrite Hlen. by eapply lookup_lt_Some.
    + rewrite list_lookup_insert_ne by done.
      destruct (decide (i ∈ done)).
      * by rewrite decide_True by (apply Hiff; auto).
      * rewrite decide_False; [done | by intros [?|?]%Hiff].
  - intros [= <-] i c Hc. specialize (Hinv i c Hc).
    destruct (decide (i ∈ done)).
    + by rewrite decide_True by (apply Hiff; auto).
    + destruct (decide (i = j)) as [->|Hij].
      * rewrite decide_True by (apply Hiff; auto). by rewrite Henc.
      * rewrite decide_False; [done | by intros [?|?]%Hiff].
Qed.

Lemma encode_array_loop_Ok self a idx done cur cur' :
  length (a_data cur) = length (a_data a) →
  array_upto self a done cur →
  for_each idx (encode_array_body self a) cur = (cur', Ok tt) →
  array_upto self a (done ++ idx) cur'.
Proof.
  revert done cur. induction idx as [|j rest IH]; intros done cur Hlen Hinv.
  - intros [= <-]. by rewrite app_nil_r.
  - rewrite for_each_cons.
    destruct (encode_array_body self a j cur) as [cur1 [[]|e]] eqn:Hj; [|done].
    intros Hrest. rewrite cons_middle, app_assoc.
    eapply IH; [| |exact Hrest].
    + apply encode_array_body_shape in Hj as (_ & _ & ->). done.
    + by eapply encode_array_body_Ok.
Qed.

(** A completed [transform] encodes what has an encoder and keeps the rest. *)
Lemma encode_table_Ok self X Y :
  encode_table self X = (Y, Ok tt) → encodes self X Y.
Proof.
  destruct X as [df|a]; simpl.
  - destruct (for_each _ _ _) as [cur r] eqn:Hloop. intros [= <- ->]. simpl.
    split; [by apply encode_frame_loop_shape in Hloop as [? _]|].
    apply (encode_frame_loop_Ok _ _ _ []) in Hloop.
    + simpl in Hloop. apply Forall2_same_length_lookup.
      split; [by eapply Forall2_length|]. intros i p q Hp Hq.
      pose proof (Forall2_lookup_lr _ _ _ _ _ _ Hloop Hp Hq) as Hpq.
      unfold encoded_upto in Hpq. rewrite decide_True in Hpq; [done|].
      unfold columns. apply list_elem_of_fmap. exists p.
      split; [done | by eapply list_elem_of_lookup_2].
    + apply Forall_Forall2_diag, Forall_forall. intros p _.
      unfold encoded_upto. by rewrite decide_False by apply not_elem_of_nil.
  - destruct (for_each _ _ _) as [cur r] eqn:Hloop. intros [= <- ->]. simpl.
    destruct (encode_array_loop_shape _ _ _ _ _ _ Hloop) as (Hd & Hn & Hl).
    repeat split; try done.
    apply (encode_array_loop_Ok _ _ _ []) in Hloop; [|done|].
    + intros i c Hc. specialize (Hloop i c Hc). simpl in Hloop.
      rewrite decide_True in Hloop; [done|].
      apply elem_of_seq. apply lookup_lt_Some in Hc. lia.
    + intros i c Hc. by rewrite decide_False by apply not_elem_of_nil.
Qed.

End encode_loops.

Section transform_outcome.
Import LabelEncodingTransformer.

Lemma encode_frame_loop_completes self df cols cur :
  (∀ c enc, c ∈ cols → encoders self !! c = Some enc →
     ∃ s, getitem df c = Ok s ∧ is_Ok (LabelEncoder.transform enc (s_values s))) →
  ∃ cur', for_each cols (encode_frame_body self df) cur = (cur', Ok tt).
Proof.
  revert cur. induction cols as [|c rest IH]; intros cur Hok; [by eexists|].
  rewrite for_each_cons.
  assert (∃ cur1, encode_frame_body self df c cur = (cur1, Ok tt)) as [cur1 ->].
  { unfold encode_frame_body. m_unfold.
    destruct (encoders self !! c) as [enc|] eqn:Henc; [|by eexists].
    destruct (Hok c enc ltac:(by left) Henc) as (s & -> & codes & ->). by eexists. }
  apply IH. intros c' enc Hc'. apply Hok. by right.
Qed.

Lemma encode_array_loop_completes self a idx cur :
  (∀ i enc, i ∈ idx → encoders self !! KIdx i = Some enc →
     is_Ok (LabelEncoder.transform enc (getcol a i))) →
  ∃ cur', for_each idx (encode_array_body self a) cur = (cur', Ok tt).
Proof.
  revert cur. induction idx as [|j rest IH]; intros cur Hok; [by eexists|].
  rewrite for_each_cons.
  assert (∃ cur1, encode_array_body self a j cur = (cur1, Ok tt)) as [cur1 ->].
  { unfold encode_array_body. m_unfold.
    destruct (encoders self !! KIdx j) as [enc|] eqn:Henc; [|by eexists].
    destruct (Hok j enc ltac:(by left) Henc) as (codes & ->). by eexists. }
  apply IH. intros i enc Hi. apply Hok. by right.
Qed.

Lemma transform_known enc classes y :
  LabelEncoder.classes_ enc = Some classes →
  (∀ v, v ∈ y → v ∈ classes) → is_Ok (LabelEncoder.transform enc y).
Proof.
  intros Hc Hy. unfold LabelEncoder.transform. rewrite Hc.
  by apply encode_all_known.
Qed.

Lemma transform_Ok_known enc y codes :
  LabelEncoder.transform enc y = Ok codes →
  ∃ classes, LabelEncoder.classes_ enc = Some classes ∧
    Forall2 (λ v c, LabelEncoder.encode classes v = Ok c) y codes ∧
    ∀ v, v ∈ y → v ∈ classes.
Proof.
  unfold LabelEncoder.transform.
  destruct (LabelEncoder.classes_ enc) as [classes|]; [|done].
  intros Hall%encode_all_Ok. exists classes. split; [done|]. split; [done|].
  intros v Hv. destruct (decide (v ∈ classes)) as [|Hn]; [done|].
  apply list_elem_of_lookup in Hv as [i Hi].
  destruct (Forall2_lookup_l _ _ _ _ _ Hall Hi) as (c & _ & Hc).
  apply encode_Raise in Hn as [e He]. congruence.
Qed.

Lemma encode_table_completes self X :
  fitted_transformer self → distinct_labels X → ¬ has_unseen self X →
  ∃ Y, encode_table self X = (Y, Ok tt).
Proof.
  intros Hfit Hnd Hseen. destruct X as [df|a]; simpl in *.
  - destruct (encode_frame_loop_completes self df (columns df) df) as [cur ->];
      [|by eexists].
    intros c enc Hc Henc. unfold columns in Hc.
    apply list_elem_of_fmap in Hc as ([c' s] & -> & Hin). simpl in *.
    exists s. split; [by apply getitem_NoDup|].
    destruct (Hfit _ _ Henc) as [classes Hclasses].
    eapply transform_known; [done|]. intros v Hv.
    destruct (decide (v ∈ classes)) as [|Hn]; [done|]. destruct Hseen.
    exists c', enc, classes, (s_values s), v. eauto 10.
  - destruct (encode_array_loop_completes self a (seq 0 (length (a_data a))) a)
      as [cur ->]; [|by eexists].
    intros i enc Hi%elem_of_seq Henc.
    destruct (lookup_lt_is_Some_2 (a_data a) i) as [c Hc]; [lia|].
    unfold getcol. rewrite Hc. simpl.
    destruct (Hfit _ _ Henc) as [classes Hclasses].
    eapply transform_known; [done|]. intros v Hv.
    destruct (decide (v ∈ classes)) as [|Hn]; [done|]. destruct Hseen.
    exists (KIdx i), enc, classes, c, v. eauto 10.
Qed.

Lemma encodes_no_unseen self X Y : encodes self X Y → ¬ has_unseen self X.
Proof.
  intros Henc (k & enc & classes & y & v & Hk & Hclasses & Hcol & Hv & Hn).
  destruct X as [df|a], Y as [dy|ay]; simpl in *; try done.
  - destruct Henc as [_ Hall]. destruct Hcol as (s & Hin & ->).
    apply list_elem_of_lookup in Hin as [i Hi].
    destruct (Forall2_lookup_l _ _ _ _ _ Hall Hi) as (q & _ & _ & Hq).
    simpl in Hq. rewrite Hk in Hq. destruct Hq as (codes & Hcodes & _).
    apply transform_Ok_known in Hcodes as (classes' & Hc' & _ & Hknown).
    apply Hn. replace classes with classes' by congruence. by apply Hknown.
  - destruct Henc as (_ & _ & _ & Hall). destruct Hcol as (i & -> & Hi).
    specialize (Hall i y Hi). rewrite Hk in Hall.
    destruct Hall as (codes & Hcodes & _).
    apply transform_Ok_known in Hcodes as (classes' & Hc' & _ & Hknown).
    apply Hn. replace classes with classes' by congruence. by apply Hknown.
Qed.

Lemma transformed_Ok self X Y :
  transformed self X = Ok Y ↔ encode_table self X = (Y, Ok tt).
Proof.
  rewrite transformed_eq.
  destruct (encode_table self X) as [Y' [[]|e]]; simpl; split; congruence.
Qed.

End transform_outcome.

Section fit_then_transform.
Import LabelEncodingTransformer.

Lemma fit_frame_getitem df self0 self col :
  fit (Frame df) self0 = (self, Ok tt) → col ∈ columns df →
  ∃ s, getitem df col = Ok s.
Proof.
  simpl. rewrite fit_frame_learn. intros Hrun Hcol.
  destruct (learn_loop_Ok _ _ _ _ Hrun col) as [Hin _].
  destruct (Hin Hcol) as (o & Ho & _). unfold frame_pre in Ho.
  destruct (getitem df col) as [s|e]; [by exists s | done].
Qed.

(** On the table it was fitted on, a new transformer finds every value. *)
Lemma fit_then_encode X self :
  fit X init = (self, Ok tt) → ∃ Y, encode_table self X = (Y, Ok tt).
Proof.
  intros Hfit. destruct X as [df|a]; simpl.
  - destruct (encode_frame_loop_completes self df (columns df) df) as [cur ->];
      [|by eexists].
    intros c enc Hc Henc.
    destruct (fit_frame_getitem _ _ _ _ Hfit Hc) as [s Hs]. exists s. split; [done|].
    destruct (fit_frame_Ok _ _ _ Hfit c) as [Hcol _].
    specialize (Hcol s (getitem_elem_of _ _ _ Hs)).
    destruct (is_categorical (s_dtype s)).
    + destruct Hcol as (classes & Hu & Hk). rewrite Hk in Henc. injection Henc as <-.
      eapply transform_known; [done|].
      apply unique_sorted_distinct in Hu as (_ & Hin & _). intros v. apply Hin.
    + rewrite Hcol in Henc. simpl in Henc. by rewrite lookup_empty in Henc.
  - destruct (encode_array_loop_completes self a (seq 0 (length (a_data a))) a)
      as [cur ->]; [|by eexists].
    intros i enc Hi%elem_of_seq Henc.
    destruct (lookup_lt_is_Some_2 (a_data a) i) as [c Hc]; [lia|].
    unfold getcol. rewrite Hc. simpl.
    destruct (fit_array_Ok _ _ _ Hfit (KIdx i)) as [Hcol _].
    specialize (Hcol i c eq_refl Hc).
    destruct (is_number (a_dtype a)).
    + rewrite Hcol in Henc. simpl in Henc. by rewrite lookup_empty in Henc.
    + destruct Hcol as (classes & Hu & Hk). rewrite Hk in Henc. injection Henc as <-.
      eapply transform_known; [done|].
      apply unique_sorted_distinct in Hu as (_ & Hin & _). intros v. apply Hin.
Qed.

Lemma Forall2_filter_label {R : key * Series → key * Series → Prop} k l l' :
  (∀ p q, R p q → q.1 = p.1) →
  Forall2 R l l' →
  Forall2 R (filter (λ p, p.1 = k) l) (filter (λ q, q.1 = k) l').
Proof.
  intros Hlabel. induction 1 as [|p q l l' Hpq _ IH]; [constructor|].
  rewrite !filter_cons. rewrite (Hlabel _ _ Hpq).
  destruct (decide (p.1 = k)); [by constructor | done].
Qed.

(** In what [transform] returns, the column under a key that has an encoder
    holds the codes that encoder gives. *)
Lemma encodes_column self Z Y k enc y :
  encodes self Z Y → encoders self !! k = Some enc → column Z k = Some y →
  ∃ codes, LabelEncoder.transform enc y = Ok codes ∧ column Y k = Some codes.
Proof.
  destruct Z as [dz|az], Y as [dy|ay]; simpl; try done.
  - intros [_ Hall] Henc.
    destruct (getitem dz k) as [s|e] eqn:Hs; [|done]. intros [= <-].
    apply getitem_Ok in Hs.
    pose proof (Forall2_filter_label k _ _
                  (λ p q (H : encodes_series self p q), proj1 H) Hall) as Hf.
    rewrite Hs in Hf. inv Hf.
    match goal with H : Forall2 _ [] _ |- _ => inv H end.
    match goal with
    | H : encodes_series _ _ ?q |- _ => destruct H as [Hl Hq]; destruct q as [kq sq]
    end.
    simpl in *. subst kq. rewrite Henc in Hq. destruct Hq as (codes & Hcodes & ->).
    exists codes. split; [done|].
    unfold getitem. match goal with H : _ = filter _ _ |- _ => rewrite <- H end. done.
  - intros (_ & _ & _ & Hall) Henc. destruct k as [|i]; [done|]. intros Hy.
    specialize (Hall i y Hy). rewrite Henc in Hall. done.
Qed.

Lemma not_refitted_body_frame df k enc c s s' r :
  not_refitted (Frame df) k → c ∈ columns df →
  encoders s !! k = Some enc →
  learn_body (frame_pre df) c s = (s', r) → encoders s' !! k = Some enc.
Proof.
  intros Hstale Hc Hk Hrun. destruct (decide (k = c)) as [->|Hne].
  - rewrite (learn_body_skip _ _ _ _ _ Hrun); [done|].
    destruct Hstale as [Hn|(ser & Hser & Hcat)]; [done|].
    left. unfold frame_pre. rewrite Hser. simpl. by rewrite Hcat.
  - by rewrite (learn_body_other _ _ _ _ _ _ Hrun Hne).
Qed.

Lemma not_refitted_body_array a k enc c s s' r :
  not_refitted (Array a) k → c ∈ KIdx <$> seq 0 (length (a_data a)) →
  encoders s !! k = Some enc →
  learn_body (array_pre a) c s = (s', r) → encoders s' !! k = Some enc.
Proof.
  intros Hstale Hc Hk Hrun. destruct (decide (k = c)) as [->|Hne].
  - rewrite (learn_body_skip _ _ _ _ _ Hrun); [done|].
    apply list_elem_of_fmap in Hc as (i & -> & Hi%elem_of_seq).
    destruct Hstale as [Hnum|Hout].
    + left. simpl. by rewrite Hnum.
    + specialize (Hout i eq_refl). lia.
  - by rewrite (learn_body_other _ _ _ _ _ _ Hrun Hne).
Qed.

Lemma fit_retains X self0 self r k enc :
  fit X self0 = (self, r) → encoders self0 !! k = Some enc → not_refitted X k →
  encoders self !! k = Some enc.
Proof.
  intros Hfit Hk Hstale. destruct X as [df|a]; simpl in Hfit.
  - rewrite fit_frame_learn in Hfit. revert Hfit.
    apply (for_each_invariant (λ s, encoders s !! k = Some enc)); [|done].
    intros c s s' r' Hc Hs. by apply not_refitted_body_frame.
  - rewrite fit_array_learn in Hfit. revert Hfit.
    apply (for_each_invariant (λ s, encoders s !! k = Some enc)); [|done].
    intros c s s' r' Hc Hs. by apply not_refitted_body_array.
Qed.

Lemma fit_grows X self0 self r :
  fit X self0 = (self, r) → dom (encoders self0) ⊆ dom (encoders self).
Proof.
  intros Hfit k Hk%elem_of_dom. apply elem_of_dom. revert Hfit.
  destruct X as [df|a]; simpl.
  - rewrite fit_frame_learn.
    apply (for_each_invariant (λ s, is_Some (encoders s !! k))); [|done].
    intros c s s' r' _ Hs Hrun. by eapply learn_body_grows.
  - rewrite fit_array_learn.
    apply (for_each_invariant (λ s, is_Some (encoders s !! k))); [|done].
    intros c s s' r' _ Hs Hrun. by eapply learn_body_grows.
Qed.

End fit_then_transform.

(** ** Checks on small inputs *)

Section checks.
Import LabelEncodingTransformer.
Local Open Scope string_scope.

(** Levels A, B, C seen in any order are coded 0, 1, 2. *)
Example encoder_codes_sorted :
  LabelEncoder.fit_transform LabelEncoder.init [VStr "C"; VStr "A"; VStr "B"; VStr "A"]
  = Ok (LabelEncoder.mk (Some [VStr "A"; VStr "B"; VStr "C"]),
        [VNum 2; VNum 0; VNum 1; VNum 0]).
Proof. reflexivity. Qed.

Example encoder_rejects_mixed_kinds :
  is_Raise (LabelEncoder.fit LabelEncoder.init [VStr "A"; VNum 1]).
Proof. by eexists. Qed.

(** Inside the pipeline the transformer sees an object array: the encoder is
    stored under the position of the column. *)
Example fit_on_array :
  let self := (fit (Array Sample.types_array) init).1 in
  encoders self !! KIdx 0 = Some (LabelEncoder.mk (Some [VStr "L"; VStr "M"])) ∧
  original_columns self = Some ["col_0"] ∧
  transformed self (Array Sample.types_array)
  = Ok (Array (mkArray a_object 3 [[VNum 1; VNum 0; VNum 1]])).
Proof. vm_compute. done. Qed.

(** An encoder stored under a label is not used for an array, whose columns
    go by position. *)
Example frame_encoder_ignores_array :
  let self := (fit (Frame Sample.machines) init).1 in
  transformed self (Array Sample.types_array) = Ok (Array Sample.types_array).
Proof. vm_compute. done. Qed.

Example sample_run :
  @DataTransformation.initiate_data_transformation Sample.library Sample.files 0
    "train.csv" "test.csv"
  = Ok (mkArray a_object 3
          [[VNum 1; VNum 2; VNum 3]; [VNum 1; VNum 2; VNum 3]; [VNum 1; VNum 2; VNum 3];
           [VNum 1; VNum 2; VNum 3]; [VNum 1; VNum 2; VNum 3]; [VNum 2; VNum 1; VNum 0];
           [VNum 1; VNum 0; VNum 1]],
        mkArray a_object 2
          [[VNum 5; VNum 6]; [VNum 5; VNum 6]; [VNum 5; VNum 6]; [VNum 5; VNum 6];
           [VNum 5; VNum 6]; [VNum 1; VNum 1]; [VNum 1; VNum 0]],
        "artifacts/preprocessor.pkl").
Proof. vm_compute. done. Qed.

End checks.

(** * The claims about the transformer *)

Section transformer_claims.
Import LabelEncodingTransformer.
Local Open Scope string_scope.

Lemma unique_codes y classes :
  LabelEncoder.unique y = Ok classes →
  sorted_distinct y classes ∧ codes_bijective y classes.
Proof.
  intros Hu%unique_sorted_distinct. split; [done|].
  by apply sorted_distinct_bijective.
Qed.

(** C2.  A completed [fit] of a new transformer has learned an encoder for
    exactly the columns that are not numeric at fit time: in a frame, the
    columns of type object or category; in an array, every column when the
    element type is not a number.  The classes of each encoder are the
    distinct values of the column in sorted order, and encoding maps them
    one-to-one onto [0 .. k-1].  A column that is numeric gets no encoder,
    and neither does a key under which the table has no column. *)
Theorem fit_learns_categorical_columns (X : table) (self : t) :
  fit X init = (self, Ok tt) →
  match X with
  | Frame df =>
      (∀ col s, (col, s) ∈ df_data df →
         if is_categorical (s_dtype s)
         then ∃ classes,
                encoders self !! col = Some (LabelEncoder.mk (Some classes)) ∧
                sorted_distinct (s_values s) classes ∧
                codes_bijective (s_values s) classes
         else encoders self !! col = None) ∧
      (∀ k, k ∉ columns df → encoders self !! k = None)
  | Array a =>
      (∀ i c, a_data a !! i = Some c →
         if is_number (a_dtype a)
         then encoders self !! KIdx i = None
         else ∃ classes,
                encoders self !! KIdx i = Some (LabelEncoder.mk (Some classes)) ∧
                sorted_distinct c classes ∧
                codes_bijective c classes) ∧
      (∀ k, (∀ i, k = KIdx i → length (a_data a) ≤ i)%nat → encoders self !! k = None)
  end.
Proof.
  intros Hfit. destruct X as [df|a].
  - split.
    + intros col s Hin.
      destruct (fit_frame_Ok _ _ _ Hfit col) as [Hcol _]. specialize (Hcol s Hin).
      destruct (is_categorical (s_dtype s)); [|by rewrite Hcol].
      destruct Hcol as (classes & Hu & Henc). exists classes.
      split; [done|]. by apply unique_codes.
    + intros k Hk. destruct (fit_frame_Ok _ _ _ Hfit k) as [_ Hout].
      by rewrite Hout.
  - split.
    + intros i c Hc.
      destruct (fit_array_Ok _ _ _ Hfit (KIdx i)) as [Hcol _].
      specialize (Hcol i c eq_refl Hc).
      destruct (is_number (a_dtype a)); [by rewrite Hcol|].
      destruct Hcol as (classes & Hu & Henc). exists classes.
      split; [done|]. by apply unique_codes.
    + intros k Hk. destruct (fit_array_Ok _ _ _ Hfit k) as [_ Hout].
      by rewrite Hout.
Qed.

(** On the sample machines: "Type" gets an encoder, "Torque Nm" none. *)
Lemma fit_learns_categorical_columns_witness :
  let X := Frame Sample.machines in
  let self := (fit X init).1 in
  fit X init = (self, Ok tt) ∧
  (∃ classes,
     encoders self !! KName "Type" = Some (LabelEncoder.mk (Some classes)) ∧
     sorted_distinct [VStr "M"; VStr "L"; VStr "M"] classes ∧
     codes_bijective [VStr "M"; VStr "L"; VStr "M"] classes) ∧
  encoders self !! KName "Torque Nm" = None.
Proof.
  intros X self.
  assert (fit X init = (self, Ok tt)) as Hfit by (vm_compute; reflexivity).
  split; [exact Hfit|].
  destruct (fit_learns_categorical_columns X self Hfit) as [Hcols _].
  split.
  - apply (Hcols (KName "Type") (mkSeries dt_object [VStr "M"; VStr "L"; VStr "M"])).
    apply list_elem_of_In. simpl. auto.
  - apply (Hcols (KName "Torque Nm") (mkSeries dt_float64 [VNum 40; VNum 46; VNum 49])).
    apply list_elem_of_In. simpl. auto.
Defined.

(** C3.  Whatever [transform] returns is the input with each column that has
    an encoder replaced by the integer codes of its values and every other
    column unchanged; the call raises when a column with an encoder holds a
    value the encoder has not learned; and it does return when the
    transformer is fitted, the labels are distinct and no such value occurs. *)
Theorem transform_encodes_mapped_columns (self : t) (X : table) :
  (∀ Y, transformed self X = Ok Y → encodes self X Y) ∧
  (has_unseen self X → is_Raise (transformed self X)) ∧
  (fitted_transformer self → distinct_labels X → ¬ has_unseen self X →
   is_Ok (transformed self X)).
Proof.
  split; [|split].
  - intros Y HY%transformed_Ok. by apply encode_table_Ok.
  - intros Hunseen. destruct (transformed self X) as [Y|e] eqn:HY; [|by eexists].
    apply transformed_Ok, encode_table_Ok, encodes_no_unseen in HY. by destruct HY.
  - intros Hfit Hnd Hseen.
    destruct (encode_table_completes self X Hfit Hnd Hseen) as [Y HY].
    exists Y. by apply transformed_Ok.
Qed.

(** On the sample machines: "Type" becomes 1, 0, 1; a machine of the unseen
    type "H" makes the call raise. *)
Lemma transform_encodes_mapped_columns_witness :
  let self := (fit (Frame Sample.machines) init).1 in
  encodes self (Frame Sample.machines)
    (Frame (mkFrame 3
       [(KName "Type", mkSeries dt_int64 [VNum 1; VNum 0; VNum 1]);
        (KName "Torque Nm", mkSeries dt_float64 [VNum 40; VNum 46; VNum 49])])) ∧
  is_Raise (transformed self (Frame Sample.machines_unseen)).
Proof.
  intros self. split.
  - apply (transform_encodes_mapped_columns self (Frame Sample.machines)).
    vm_compute. reflexivity.
  - apply (transform_encodes_mapped_columns self (Frame Sample.machines_unseen)).
    exists (KName "Type"), (LabelEncoder.mk (Some [VStr "L"; VStr "M"])),
      [VStr "L"; VStr "M"], [VStr "H"], (VStr "H").
    split; [vm_compute; reflexivity|]. split; [reflexivity|]. split.
    + exists (mkSeries dt_object [VStr "H"]). split; [|reflexivity].
      apply list_elem_of_In. simpl. auto.
    + split; [apply list_elem_of_In; simpl; auto|].
      intros Hin%list_elem_of_In. simpl in Hin.
      destruct Hin as [Hin|[Hin|[]]]; discriminate Hin.
Defined.

(** C8.  [transform] does not mutate its input: after the call, whether it
    returned or raised, the input table and every other table that existed
    are as before; what is returned is a new table, at a reference that was
    not in use, with the shape of the input. *)
Theorem transform_leaves_input_unchanged (self : t) (x : positive)
    (h h' : gmap positive table) (X : table) (r : result positive) :
  h !! x = Some X →
  transform self x h = (h', r) →
  h' !! x = Some X ∧
  (∀ l, l ∈ dom h → h' !! l = h !! l) ∧
  (∀ xe, r = Ok xe →
     (xe ∉ dom h) ∧ ∃ Y, h' !! xe = Some Y ∧ shape Y = shape X).
Proof.
  intros Hx. rewrite (transform_run _ _ _ _ Hx).
  destruct (encode_table self X) as [Y r'] eqn:HY. intros [= <- <-].
  pose proof (is_fresh (dom h)) as Hfresh.
  assert (∀ l, l ∈ dom h → <[fresh (dom h) := Y]> h !! l = h !! l) as Hframe.
  { intros l Hl. apply lookup_insert_ne. by intros <-. }
  split; [|split].
  - rewrite Hframe; [done|]. apply elem_of_dom. by eexists.
  - done.
  - intros xe Hr. destruct r' as [[]|e]; simpl in Hr; [|done].
    injection Hr as <-. split; [done|]. exists Y.
    split; [by rewrite lookup_insert_eq | by eapply encode_table_shape].
Qed.

(** On a heap that holds the sample machines only. *)
Lemma transform_leaves_input_unchanged_witness :
  let self := (fit (Frame Sample.machines) init).1 in
  let h : gmap positive table := {[ 1%positive := Frame Sample.machines ]} in
  let out := transform self 1%positive h in
  out.1 !! 1%positive = Some (Frame Sample.machines) ∧
  ∃ xe Y, out.2 = Ok xe ∧ (xe ∉ dom h) ∧ out.1 !! xe = Some Y ∧ shape Y = (3, 2)%nat.
Proof.
  intros self h out.
  assert (h !! 1%positive = Some (Frame Sample.machines)) as Hx
    by (vm_compute; reflexivity).
  assert (out.2 = Ok 2%positive) as Hout by (vm_compute; reflexivity).
  destruct (transform_leaves_input_unchanged self 1%positive h out.1
              (Frame Sample.machines) out.2 Hx)
    as (Hsame & _ & Hnew); [apply surjective_pairing|].
  split; [exact Hsame|].
  destruct (Hnew 2%positive Hout) as (Hfresh & Y & HY & Hshape).
  exists 2%positive, Y. repeat split; assumption.
Defined.

(** C9.  For a table without missing values, [fit] followed by [transform]
    can be repeated: a second [transform] of the same input, made after the
    first, returns a table identical to the one the first returned (which is
    still there). *)
Theorem fit_then_transform_repeatable (X : table) (self : t) (x : positive)
    (h : gmap positive table) :
  no_missing X → h !! x = Some X → fit X init = (self, Ok tt) →
  ∃ h1 x1 h2 x2 Y,
    transform self x h = (h1, Ok x1) ∧ h1 !! x1 = Some Y ∧
    transform self x h1 = (h2, Ok x2) ∧ h2 !! x2 = Some Y ∧
    h2 !! x1 = Some Y ∧ x1 ≠ x2.
Proof.
  intros _ Hx Hfit. destruct (fit_then_encode X self Hfit) as [Y HY].
  set (x1 := fresh (dom h)). set (h1 := <[x1 := Y]> h).
  set (x2 := fresh (dom h1)). set (h2 := <[x2 := Y]> h1).
  assert (x ≠ x1) as Hne1.
  { intros ->. apply (is_fresh (dom h)). apply elem_of_dom. by eexists. }
  assert (h1 !! x = Some X) as Hx1 by (unfold h1; by rewrite lookup_insert_ne).
  assert (x1 ≠ x2) as Hne2.
  { intros Heq. apply (is_fresh (dom h1)). fold x2. rewrite <- Heq.
    apply elem_of_dom. unfold h1. rewrite lookup_insert_eq. by eexists. }
  exists h1, x1, h2, x2, Y. repeat split.
  - rewrite (transform_run _ _ _ _ Hx), HY. done.
  - unfold h1. by rewrite lookup_insert_eq.
  - rewrite (transform_run _ _ _ _ Hx1), HY. done.
  - unfold h2. by rewrite lookup_insert_eq.
  - unfold h2, h1. rewrite lookup_insert_ne by done. by rewrite lookup_insert_eq.
  - done.
Qed.

(** On a heap that holds the sample machines only. *)
Lemma fit_then_transform_repeatable_witness :
  let X := Frame Sample.machines in
  let self := (fit X init).1 in
  let h : gmap positive table := {[ 1%positive := X ]} in
  no_missing X ∧
  ∃ h1 x1 h2 x2 Y,
    transform self 1%positive h = (h1, Ok x1) ∧ h1 !! x1 = Some Y ∧
    transform self 1%positive h1 = (h2, Ok x2) ∧ h2 !! x2 = Some Y ∧
    h2 !! x1 = Some Y ∧ x1 ≠ x2.
Proof.
  intros X self h.
  assert (no_missing X) as Hfull.
  { intros p Hp%list_elem_of_In Hnan%list_elem_of_In. simpl in Hp.
    destruct Hp as [<-|[<-|[]]]; simpl in Hnan;
      repeat (destruct Hnan as [Hnan|Hnan]; [discriminate Hnan|]); destruct Hnan. }
  split; [exact Hfull|].
  apply (fit_then_transform_repeatable X self 1%positive h Hfull).
  - vm_compute. reflexivity.
  - vm_compute. reflexivity.
Defined.

(** C10.  [fit] never removes or resets an encoder: the keys of
    [self.encoders] before the call are keys after it, whether it returned or
    raised; an encoder stored under a key for which the new data has no
    column, or a column that is not encoded, stays as it was, and [transform]
    goes on applying it to the column under that key. *)
Theorem fit_keeps_earlier_encoders (X : table) (self0 self : t) (r : result unit) :
  fit X self0 = (self, r) →
  dom (encoders self0) ⊆ dom (encoders self) ∧
  ∀ k enc, encoders self0 !! k = Some enc → not_refitted X k →
    encoders self !! k = Some enc ∧
    ∀ Z Y y, transformed self Z = Ok Y → column Z k = Some y →
      ∃ codes, LabelEncoder.transform enc y = Ok codes ∧ column Y k = Some codes.
Proof.
  intros Hfit. split; [by eapply fit_grows|].
  intros k enc Hk Hstale.
  pose proof (fit_retains _ _ _ _ _ _ Hfit Hk Hstale) as Hkept.
  split; [done|]. intros Z Y y HY%transformed_Ok%encode_table_Ok Hy.
  by eapply encodes_column.
Qed.

(** Fitted on the sample machines, then on the same machines with a numeric
    "Type": the encoder of the first fit is still there, and [transform]
    raises on the numeric column, whose values it has not learned. *)
Lemma fit_keeps_earlier_encoders_witness :
  let self1 := (fit (Frame Sample.machines) init).1 in
  let self2 := (fit (Frame Sample.machines_numeric) self1).1 in
  let stale := LabelEncoder.mk (Some [VStr "L"; VStr "M"]) in
  encoders self1 !! KName "Type" = Some stale ∧
  not_refitted (Frame Sample.machines_numeric) (KName "Type") ∧
  encoders self2 !! KName "Type" = Some stale ∧
  is_Raise (transformed self2 (Frame Sample.machines_numeric)).
Proof.
  intros self1 self2 stale.
  assert (encoders self1 !! KName "Type" = Some stale) as H1
    by (vm_compute; reflexivity).
  assert (not_refitted (Frame Sample.machines_numeric) (KName "Type")) as Hstale.
  { right. exists (mkSeries dt_int64 [VNum 1; VNum 0; VNum 1]). split; reflexivity. }
  destruct (fit_keeps_earlier_encoders (Frame Sample.machines_numeric) self1 self2
              (fit (Frame Sample.machines_numeric) self1).2
              (surjective_pairing _)) as [_ Hkeep].
  destruct (Hkeep (KName "Type") stale H1 Hstale) as [Hkept Happlied].
  repeat split; try assumption.
  destruct (transformed self2 (Frame Sample.machines_numeric)) as [Y|e] eqn:HY;
    [|by eexists].
  destruct (Happlied _ Y [VNum 1; VNum 0; VNum 1] HY eq_refl) as (codes & Hcodes & _).
  vm_compute in Hcodes. discriminate Hcodes.
Defined.

End transformer_claims.

(** ** Results of binds *)

Lemma bind_Ok {A B} (m : result A) (k : A → result B) (b : B) :
  m ≫= k = Ok b ↔ ∃ a, m = Ok a ∧ k a = Ok b.
Proof.
  destruct m as [a|e]; simpl; split.
  - intros Hk. by exists a.
  - by intros (a' & [= <-] & Hk).
  - done.
  - by intros (a' & ? & _).
Qed.

Lemma fmap_Ok {A B} (f : A → B) (m : result A) (b : B) :
  f <$> m = Ok b ↔ ∃ a, m = Ok a ∧ b = f a.
Proof.
  destruct m as [a|e]; simpl; split.
  - intros [= <-]. by exists a.
  - by intros (a' & [= <-] & ->).
  - done.
  - by intros (a' & ? & _).
Qed.

Lemma bind_Raise {A B} (m : result A) (k : A → result B) :
  is_Raise (m ≫= k) ↔ is_Raise m ∨ ∃ a, m = Ok a ∧ is_Raise (k a).
Proof.
  destruct m as [a|e]; simpl; split.
  - intros Hk. right. by exists a.
  - intros [[e ?]|(a' & [= <-] & Hk)]; done.
  - intros _. left. by eexists.
  - intros _. by eexists.
Qed.

Lemma wrap_custom_Ok {A} (r : result A) (a : A) : wrap_custom r = Ok a ↔ r = Ok a.
Proof. destruct r; simpl; split; congruence. Qed.

Lemma Ok_or_Raise {A} (r : result A) : is_Ok r ∨ is_Raise r.
Proof. destruct r; [left | right]; by eexists. Qed.

(** A sequence raises when its first statement does, or else the rest does. *)
Lemma bind_Raise_seq {A B} (m : result A) (k : A → result B) :
  (∀ a, m = Ok a → is_Raise (k a)) → is_Raise (m ≫= k).
Proof. destruct m as [a|e]; simpl; [by auto | by eexists]. Qed.

(** ** Selecting and stacking columns *)

Lemma select_columns_labels df cols ss :
  select_columns df cols = Ok ss → ss.*1 = cols.
Proof.
  revert ss. induction cols as [|c rest IH]; intros ss; simpl.
  - by intros [= <-].
  - destruct (getitem df c) as [s|e]; [|done].
    intros (ss' & Hss & [= <-])%bind_Ok. simpl. f_equal. by apply IH.
Qed.

Lemma select_shape X cols Xs :
  select X cols = Ok Xs → shape Xs = ((shape X).1, length cols).
Proof.
  destruct X as [df|a]; simpl; [|done].
  intros (ss & Hss%select_columns_labels & [= <-])%bind_Ok. simpl. f_equal.
  apply (f_equal length) in Hss. by rewrite length_fmap in Hss.
Qed.

Lemma select_columns_missing df cols k :
  k ∈ cols → k ∉ columns df → is_Raise (select_columns df cols).
Proof.
  intros Hk Hn. induction cols as [|c rest IH]; [by apply elem_of_nil in Hk|].
  simpl. apply elem_of_cons in Hk as [<-|Hk].
  - rewrite getitem_absent by done. by eexists.
  - destruct (getitem df c); [|by eexists].
    destruct (IH Hk) as [e ->]. by eexists.
Qed.

Lemma select_missing df cols k :
  k ∈ cols → k ∉ columns df → is_Raise (select (Frame df) cols).
Proof.
  intros Hk Hn. simpl.
  destruct (select_columns_missing df cols k Hk Hn) as [e ->]. by eexists.
Qed.

Lemma drop_Ok df cols df' :
  drop df cols = Ok df' →
  df_nrows df' = df_nrows df ∧ df_data df' = filter (λ p, p.1 ∉ cols) (df_data df).
Proof.
  unfold drop. destruct (filter _ cols); [|done]. by intros [= <-].
Qed.

Lemma filter_label_drop (l : list (key * Series)) k c :
  c ≠ k →
  filter (λ p, p.1 = c) (filter (λ p, p.1 ∉ [k]) l) = filter (λ p, p.1 = c) l.
Proof.
  intros Hne. induction l as [|p l IH]; [done|].
  rewrite !filter_cons. destruct (decide (p.1 = c)) as [Hp|Hp].
  - rewrite decide_True.
    + rewrite filter_cons, decide_True by done. by f_equal.
    + rewrite list_elem_of_singleton. congruence.
  - destruct (decide (p.1 ∉ [k])); [|done].
    by rewrite filter_cons, decide_False.
Qed.

Lemma getitem_drop df k df' c :
  drop df [k] = Ok df' → c ≠ k → getitem df' c = getitem df c.
Proof.
  intros [_ Hdata]%drop_Ok Hne. unfold getitem.
  by rewrite Hdata, filter_label_drop.
Qed.

Lemma select_drop df k df' cols :
  drop df [k] = Ok df' → k ∉ cols →
  select (Frame df') cols = select (Frame df) cols.
Proof.
  intros Hdrop Hk. simpl. destruct (drop_Ok _ _ _ Hdrop) as [-> _]. f_equal.
  induction cols as [|c rest IH]; [done|].
  apply not_elem_of_cons in Hk as [Hne Hk]. simpl.
  rewrite (getitem_drop _ _ _ _ Hdrop) by done. by rewrite IH.
Qed.

Lemma hstack_Ok A B C :
  hstack A B = Ok C →
  a_nrows A = a_nrows B ∧ a_nrows C = a_nrows A ∧ a_data C = a_data A ++ a_data B.
Proof. unfold hstack. case_decide; [|done]. by intros [= <-]. Qed.

Lemma c_Ok A y C :
  c_ A y = Ok C →
  a_nrows A = length y ∧ a_nrows C = a_nrows A ∧ a_data C = a_data A ++ [y].
Proof. intros (? & ? & ?)%hstack_Ok. done. Qed.

Lemma c_rows A y : a_nrows A = length y → is_Ok (c_ A y).
Proof. intros Hn. unfold c_, hstack. simpl. rewrite decide_True by done. by eexists. Qed.

(** ** The driver, step by step *)

Lemma fit_transform_Ok (T : Transformer) X st Y :
  fit_transform T X = Ok (st, Y) ↔ est_fit T X = Ok st ∧ est_transform T st X = Ok Y.
Proof.
  unfold fit_transform. split.
  - intros HY. apply bind_Ok in HY as (st' & Hst & HY).
    apply bind_Ok in HY as (Y' & HY' & [= -> ->]). done.
  - intros [-> HY]. simpl. by rewrite HY.
Qed.

Lemma label_fit_transform_Ok y enc codes :
  LabelEncoder.fit_transform LabelEncoder.init y = Ok (enc, codes) ↔
  ∃ classes, LabelEncoder.unique y = Ok classes ∧
    enc = LabelEncoder.mk (Some classes) ∧
    LabelEncoder.encode_all classes y = Ok codes.
Proof.
  unfold LabelEncoder.fit_transform, LabelEncoder.fit. split.
  - intros H. apply bind_Ok in H as (enc' & Henc & H).
    apply bind_Ok in Henc as (classes & Hu & [= <-]).
    apply bind_Ok in H as (codes' & Hcodes & [= <- <-]).
    by exists classes.
  - intros (classes & -> & -> & Hcodes). simpl.
    unfold LabelEncoder.transform. simpl. by rewrite Hcodes.
Qed.

Section driver_steps.
Context `{Sklearn}.
Import DataTransformation.

Lemma read_csv_Ok (fs : gmap string DataFrame) path df :
  read_csv fs path = Ok df ↔ fs !! path = Some df.
Proof. unfold read_csv. destruct (fs !! path); split; congruence. Qed.

Lemma initiate_Ok fs g train_path test_path train_arr test_arr p :
  initiate_data_transformation fs g train_path test_path = Ok (train_arr, test_arr, p) ↔
  (∃ s, Run fs g train_path test_path s train_arr test_arr) ∧
  p = preprocessor_obj_file_path.
Proof.
  unfold initiate_data_transformation. rewrite wrap_custom_Ok. split.
  - intros Hrun.
    apply bind_Ok in Hrun as (tr_df & Htrain%read_csv_Ok & Hrun).
    apply bind_Ok in Hrun as (te_df & Htest%read_csv_Ok & Hrun).
    apply bind_Ok in Hrun as (obj & [= <-] & Hrun).
    apply bind_Ok in Hrun as (ftr & Hftr & Hrun).
    apply bind_Ok in Hrun as (ytr & Hytr & Hrun).
    apply bind_Ok in Hrun as (fte & Hfte & Hrun).
    apply bind_Ok in Hrun as (yte & Hyte & Hrun).
    apply bind_Ok in Hrun as ([st Xtr] & [Hfit Htr]%fit_transform_Ok & Hrun).
    apply bind_Ok in Hrun as (Xte & Hte & Hrun).
    apply bind_Ok in Hrun as ([enc codes_tr] & Henc & Hrun).
    apply label_fit_transform_Ok in Henc as (classes & Hu & -> & Hcodes_tr).
    apply bind_Ok in Hrun as (codes_te & Hcodes_te & Hrun).
    apply bind_Ok in Hrun as (res & Hres & Hrun).
    apply bind_Ok in Hrun as (tr & Htr_arr & Hrun).
    apply bind_Ok in Hrun as (te & Hte_arr & [= <- <- <-]).
    split; [|done].
    exists (mkStages tr_df te_df ftr fte ytr yte st Xtr Xte classes codes_tr codes_te res).
    repeat split; assumption.
  - intros [[s Hs] ->].
    destruct Hs as (Hr1 & Hr2 & Hd1 & Hg1 & Hd2 & Hg2 & Hfit & Ht1 & Ht2 & Hu & He1 & He2
                    & Hres & Hc1 & Hc2).
    apply bind_Ok. exists (train_df s). split; [by apply read_csv_Ok|].
    apply bind_Ok. exists (test_df s). split; [by apply read_csv_Ok|].
    apply bind_Ok. exists preprocessor. split; [done|].
    apply bind_Ok. exists (train_features s). split; [done|].
    apply bind_Ok. exists (train_target s). split; [done|].
    apply bind_Ok. exists (test_features s). split; [done|].
    apply bind_Ok. exists (test_target s). split; [done|].
    apply bind_Ok. exists (fitted_obj s, train_matrix s).
    split; [by apply fit_transform_Ok|].
    apply bind_Ok. exists (test_matrix s). split; [done|].
    apply bind_Ok. exists (LabelEncoder.mk (Some (target_classes s)), train_codes s).
    split; [apply label_fit_transform_Ok; by exists (target_classes s)|].
    apply bind_Ok. exists (test_codes s). split; [done|].
    apply bind_Ok. exists (resampled s). split; [done|].
    apply bind_Ok. exists train_arr. split; [done|].
    apply bind_Ok. exists test_arr. split; [done|]. done.
Qed.

End driver_steps.

(** * The claims about the router and the driver *)

Section router.
Context `{Sklearn}.
Import DataTransformation.

Lemma ct2_transform n1 T1 c1 n2 T2 c2 st X :
  est_transform (ColumnTransformer [(n1, T1, c1); (n2, T2, c2)]) st X =
  (Xn ← select X c1; Bn ← est_transform T1 st.1 Xn;
   Xc ← select X c2; Bc ← est_transform T2 st.2.1 Xc;
   Array <$> hstack (asarray Bn) (asarray Bc)).
Proof.
  simpl. destruct (select X c1) as [Xn|]; simpl; [|done].
  destruct (est_transform T1 st.1 Xn) as [Bn|]; simpl; [|done].
  destruct (select X c2) as [Xc|]; simpl; [|done].
  by destruct (est_transform T2 st.2.1 Xc) as [Bc|].
Qed.

Lemma ct2_fit n1 T1 c1 n2 T2 c2 X :
  est_fit (ColumnTransformer [(n1, T1, c1); (n2, T2, c2)]) X =
  (Xn ← select X c1; s1 ← est_fit T1 Xn;
   Xc ← select X c2; s2 ← est_fit T2 Xc;
   Ok (s1, (s2, tt))).
Proof.
  simpl. destruct (select X c1) as [Xn|]; simpl; [|done].
  destruct (est_fit T1 Xn) as [s1|]; simpl; [|done].
  destruct (select X c2) as [Xc|]; simpl; [|done].
  by destruct (est_fit T2 Xc) as [s2|].
Qed.

Lemma preprocessor_transform st X :
  est_transform preprocessor st X =
  (Xn ← select X numerical_columns; Bn ← est_transform num_pipeline st.1 Xn;
   Xc ← select X categorical_columns; Bc ← est_transform cat_pipeline st.2.1 Xc;
   Array <$> hstack (asarray Bn) (asarray Bc)).
Proof. apply ct2_transform. Qed.

Lemma preprocessor_fit X :
  est_fit preprocessor X =
  (Xn ← select X numerical_columns; s1 ← est_fit num_pipeline Xn;
   Xc ← select X categorical_columns; s2 ← est_fit cat_pipeline Xc;
   Ok (s1, (s2, tt))).
Proof. apply ct2_fit. Qed.

Lemma preprocessor_transform_Ok st X Y :
  est_transform preprocessor st X = Ok Y →
  ∃ Xn Xc Bn Bc a,
    select X numerical_columns = Ok Xn ∧ est_transform num_pipeline st.1 Xn = Ok Bn ∧
    select X categorical_columns = Ok Xc ∧ est_transform cat_pipeline st.2.1 Xc = Ok Bc ∧
    hstack (asarray Bn) (asarray Bc) = Ok a ∧ Y = Array a.
Proof.
  rewrite preprocessor_transform. intros HY.
  apply bind_Ok in HY as (Xn & HXn & HY). apply bind_Ok in HY as (Bn & HBn & HY).
  apply bind_Ok in HY as (Xc & HXc & HY). apply bind_Ok in HY as (Bc & HBc & HY).
  apply fmap_Ok in HY as (a & Ha & ->). by exists Xn, Xc, Bn, Bc, a.
Qed.

(** C5.  The object [get_data_transformer_object] returns stacks the output
    of the numeric pipeline and then that of the categorical pipeline, each
    computed from its named columns alone; removing any other column from
    the input changes neither what is fitted nor what is returned; and both
    fitting and transforming raise when a named column is missing. *)
Theorem router_concatenates_named_columns :
  get_data_transformer_object = Ok preprocessor ∧
  (∀ X st Y, est_transform preprocessor st X = Ok Y →
     ∃ Xn Xc Bn Bc a,
       select X numerical_columns = Ok Xn ∧
       est_transform num_pipeline st.1 Xn = Ok Bn ∧
       select X categorical_columns = Ok Xc ∧
       est_transform cat_pipeline st.2.1 Xc = Ok Bc ∧
       Y = Array a ∧ a_data a = a_data (asarray Bn) ++ a_data (asarray Bc)) ∧
  (∀ df k df', k ∉ numerical_columns ++ categorical_columns →
     drop df [k] = Ok df' →
     est_fit preprocessor (Frame df') = est_fit preprocessor (Frame df) ∧
     ∀ st, est_transform preprocessor st (Frame df')
           = est_transform preprocessor st (Frame df)) ∧
  (∀ df k, k ∈ numerical_columns ++ categorical_columns → k ∉ columns df →
     is_Raise (est_fit preprocessor (Frame df)) ∧
     ∀ st, is_Raise (est_transform preprocessor st (Frame df))).
Proof.
  split; [done|]. split; [|split].
  - intros X st Y (Xn & Xc & Bn & Bc & a & ? & ? & ? & ? & Ha & ->)%preprocessor_transform_Ok.
    apply hstack_Ok in Ha as (_ & _ & Ha). by exists Xn, Xc, Bn, Bc, a.
  - intros df k df' Hk Hdrop.
    apply not_elem_of_app in Hk as [Hn Hc].
    split; [|intros st].
    + by rewrite !preprocessor_fit, !(select_drop _ _ _ _ Hdrop).
    + by rewrite !preprocessor_transform, !(select_drop _ _ _ _ Hdrop).
  - intros df k Hk Hmissing.
    assert (is_Raise (select (Frame df) numerical_columns) ∨
            is_Raise (select (Frame df) categorical_columns)) as Hsel.
    { apply elem_of_app in Hk as [Hk|Hk]; [left | right]; by eapply select_missing. }
    split; [|intros st].
    + rewrite preprocessor_fit.
      destruct Hsel as [Hsel|Hsel]; [apply bind_Raise; by left|].
      apply bind_Raise_seq. intros Xn _. apply bind_Raise_seq. intros Bn _.
      apply bind_Raise. by left.
    + rewrite preprocessor_transform.
      destruct Hsel as [Hsel|Hsel]; [apply bind_Raise; by left|].
      apply bind_Raise_seq. intros Xn _. apply bind_Raise_seq. intros Bn _.
      apply bind_Raise. by left.
Qed.

(** C7.  The driver is a function of the two files it reads: neither the
    other files nor the state of numpy's global random generator change what
    it returns, since the rebalancer draws from a generator of its own,
    seeded with 42. *)
Theorem driver_is_deterministic (fs fs' : gmap string DataFrame) (g g' : rng)
    (train_path test_path : string) :
  fs !! train_path = fs' !! train_path →
  fs !! test_path = fs' !! test_path →
  initiate_data_transformation fs g train_path test_path =
  initiate_data_transformation fs' g' train_path test_path.
Proof.
  intros Htrain Htest. unfold initiate_data_transformation, read_csv.
  rewrite Htrain, Htest. reflexivity.
Qed.

End router.

Section driver.
Context `{Sklearn}.
Import DataTransformation.

Lemma encode_all_subset classes y codes c :
  LabelEncoder.encode_all classes y = Ok codes → c ∈ codes →
  ∃ v, v ∈ y ∧ LabelEncoder.encode classes v = Ok c.
Proof.
  intros Hall%encode_all_Ok (i & Hi)%list_elem_of_lookup.
  destruct (Forall2_lookup_r _ _ _ _ _ Hall Hi) as (v & Hv & Hc).
  exists v. split; [by eapply list_elem_of_lookup_2 | done].
Qed.

(** The target encoder of a returning call: fitted on the training targets,
    applied to the test targets. *)
Lemma Run_target_encoder fs g train_path test_path s train_arr test_arr :
  Run fs g train_path test_path s train_arr test_arr →
  sorted_distinct (s_values (train_target s)) (target_classes s) ∧
  Forall2 (λ v c, LabelEncoder.encode (target_classes s) v = Ok c)
    (s_values (test_target s)) (test_codes s) ∧
  last (a_data test_arr) = Some (test_codes s) ∧
  ∀ v, v ∈ s_values (test_target s) → v ∈ s_values (train_target s).
Proof.
  intros (_ & _ & _ & _ & _ & _ & _ & _ & _ & Hu & _ & He2 & _ & _ & Hc2).
  pose proof (unique_sorted_distinct _ _ Hu) as Hsd.
  apply c_Ok in Hc2 as (_ & _ & Hdata).
  split; [done|]. split; [by apply encode_all_Ok|].
  split; [by rewrite Hdata, last_snoc|].
  intros v Hv. destruct Hsd as (_ & Hin & _). apply Hin.
  destruct (decide (v ∈ target_classes s)) as [|Hn]; [done|].
  destruct (encode_all_unseen _ _ _ Hv Hn) as [e He]. congruence.
Qed.

Lemma Run_inputs fs g train_path test_path s train_arr test_arr tr_df te_df ytr yte :
  Run fs g train_path test_path s train_arr test_arr →
  fs !! train_path = Some tr_df → fs !! test_path = Some te_df →
  getitem tr_df target_column_name = Ok ytr →
  getitem te_df target_column_name = Ok yte →
  train_df s = tr_df ∧ test_df s = te_df ∧ train_target s = ytr ∧ test_target s = yte.
Proof.
  intros (Hr1 & Hr2 & _ & Hg1 & _ & Hg2 & _) Htr Hte Hytr Hyte.
  assert (train_df s = tr_df) as E1 by congruence.
  assert (test_df s = te_df) as E2 by congruence.
  rewrite E1 in Hg1. rewrite E2 in Hg2.
  repeat split; congruence.
Qed.

Lemma initiate_raises_unseen fs g train_path test_path tr_df te_df ytr yte v :
  fs !! train_path = Some tr_df → fs !! test_path = Some te_df →
  getitem tr_df target_column_name = Ok ytr →
  getitem te_df target_column_name = Ok yte →
  v ∈ s_values yte → v ∉ s_values ytr →
  is_Raise (initiate_data_transformation fs g train_path test_path).
Proof.
  intros Htr Hte Hytr Hyte Hv Hn.
  destruct (initiate_data_transformation fs g train_path test_path)
    as [[[train_arr test_arr] p]|e] eqn:Hrun; [|by eexists].
  apply initiate_Ok in Hrun as [[s Hs] _].
  pose proof (Run_target_encoder _ _ _ _ _ _ _ Hs) as (_ & _ & _ & Hsub).
  destruct (Run_inputs _ _ _ _ _ _ _ _ _ _ _ Hs Htr Hte Hytr Hyte) as (_ & _ & E3 & E4).
  rewrite E3, E4 in Hsub. destruct Hn. by apply Hsub.
Qed.

(** C4.  The target encoder learns its classes from the training split's
    "Failure Type" values alone (the distinct values in sorted order, coded
    [0 .. k-1]); the last column of the test matrix holds the codes these
    classes give the test split's values, in order; and the call raises when
    the test split has a target value that the training split lacks. *)
Theorem target_encoder_is_fitted_on_train (fs : gmap string DataFrame) (g : rng)
    (train_path test_path : string) (tr_df te_df : DataFrame) (ytr yte : Series) :
  fs !! train_path = Some tr_df → fs !! test_path = Some te_df →
  getitem tr_df target_column_name = Ok ytr →
  getitem te_df target_column_name = Ok yte →
  (∀ train_arr test_arr p,
     initiate_data_transformation fs g train_path test_path
       = Ok (train_arr, test_arr, p) →
     ∃ classes codes,
       LabelEncoder.fit LabelEncoder.init (s_values ytr)
         = Ok (LabelEncoder.mk (Some classes)) ∧
       sorted_distinct (s_values ytr) classes ∧
       codes_bijective (s_values ytr) classes ∧
       LabelEncoder.transform (LabelEncoder.mk (Some classes)) (s_values yte) = Ok codes ∧
       Forall2 (λ v c, LabelEncoder.encode classes v = Ok c) (s_values yte) codes ∧
       last (a_data test_arr) = Some codes) ∧
  ((∃ v, v ∈ s_values yte ∧ v ∉ s_values ytr) →
   is_Raise (initiate_data_transformation fs g train_path test_path)).
Proof.
  intros Htr Hte Hytr Hyte. split.
  - intros train_arr test_arr p [[s Hs] _]%initiate_Ok.
    pose proof (Run_target_encoder _ _ _ _ _ _ _ Hs) as (Hsd & Hcodes & Hlast & _).
    destruct (Run_inputs _ _ _ _ _ _ _ _ _ _ _ Hs Htr Hte Hytr Hyte) as (_ & _ & E3 & E4).
    rewrite E3 in Hsd. rewrite E4 in Hcodes.
    destruct Hs as (_ & _ & _ & _ & _ & _ & _ & _ & _ & Hu & _ & He2 & _).
    rewrite E3 in Hu. rewrite E4 in He2.
    exists (target_classes s), (test_codes s).
    split; [apply fit_Ok; by exists (target_classes s)|].
    split; [done|]. split; [by apply sorted_distinct_bijective|]. done.
  - intros (v & Hv & Hn). by eapply initiate_raises_unseen.
Qed.

Lemma asarray_shape X : (a_nrows (asarray X), length (a_data (asarray X))) = shape X.
Proof. destruct X as [df|a]; simpl; [|done]. by rewrite length_map. Qed.

Lemma transformed_shape self X Y :
  LabelEncodingTransformer.transformed self X = Ok Y → shape Y = shape X.
Proof. intros HY%transformed_Ok. by eapply encode_table_shape. Qed.

Section shapes.
Context `{!KeepsShape}.

Lemma num_pipeline_shape st X Y :
  est_transform num_pipeline st X = Ok Y → shape Y = shape X.
Proof.
  change (est_transform num_pipeline st X)
    with (X1 ← Array <$> SimpleImputer_transform st.1 X;
          Array <$> StandardScaler_transform st.2 X1).
  intros HY. apply bind_Ok in HY as (X1 & HX1 & HY).
  apply fmap_Ok in HX1 as (I & HI%imputer_shape & ->).
  apply fmap_Ok in HY as (B & HB%scaler_shape & ->). simpl in *. congruence.
Qed.

Lemma cat_pipeline_shape st X Y :
  est_transform cat_pipeline st X = Ok Y → shape Y = shape X.
Proof.
  change (est_transform cat_pipeline st X)
    with (X1 ← Array <$> SimpleImputer_transform st.1 X;
          X2 ← LabelEncodingTransformer.transformed st.2.1 X1;
          Array <$> StandardScaler_transform st.2.2 X2).
  intros HY. apply bind_Ok in HY as (X1 & HX1 & HY).
  apply fmap_Ok in HX1 as (I & HI%imputer_shape & ->).
  apply bind_Ok in HY as (X2 & HX2%transformed_shape & HY).
  apply fmap_Ok in HY as (B & HB%scaler_shape & ->). simpl in *. congruence.
Qed.

(** Six feature columns, one row per row of the frame. *)
Lemma preprocessor_shape st df Y :
  est_transform preprocessor st (Frame df) = Ok Y → shape Y = (df_nrows df, 6%nat).
Proof.
  intros (Xn & Xc & Bn & Bc & a & HXn & HBn & HXc & HBc & Ha & ->)%preprocessor_transform_Ok.
  apply num_pipeline_shape in HBn. apply cat_pipeline_shape in HBc.
  apply select_shape in HXn, HXc. rewrite HXn in HBn. rewrite HXc in HBc.
  apply hstack_Ok in Ha as (_ & Hn & Hdata). simpl.
  pose proof (asarray_shape Bn) as Hn'. pose proof (asarray_shape Bc) as Hc'.
  rewrite HBn in Hn'. rewrite HBc in Hc'. simpl in *.
  injection Hn' as Hrows Hcols. injection Hc' as _ Hcols'.
  rewrite Hn, Hdata, length_app, Hcols, Hcols', Hrows. done.
Qed.

(** C1, as amended.  If both files can be read, the feature preprocessing
    succeeds on both splits, the training targets can be sorted, every
    target value of the test split occurs in the training split and the
    rebalancer succeeds, then the driver returns a triple (train matrix, test
    matrix, artifact path); each matrix has the 6 preprocessed feature columns
    followed by the encoded target as 7th and last column. *)
Theorem driver_returns_seven_columns (fs : gmap string DataFrame) (g : rng)
    (train_path test_path : string) (tr_df te_df ftr fte : DataFrame)
    (ytr yte : Series) (st : fitted preprocessor) (Xtr Xte : table) :
  fs !! train_path = Some tr_df → fs !! test_path = Some te_df →
  frame_wf te_df →
  drop tr_df [target_column_name] = Ok ftr →
  getitem tr_df target_column_name = Ok ytr →
  drop te_df [target_column_name] = Ok fte →
  getitem te_df target_column_name = Ok yte →
  est_fit preprocessor (Frame ftr) = Ok st →
  est_transform preprocessor st (Frame ftr) = Ok Xtr →
  est_transform preprocessor st (Frame fte) = Ok Xte →
  is_Ok (LabelEncoder.unique (s_values ytr)) →
  (∀ v, v ∈ s_values yte → v ∈ s_values ytr) →
  (∀ classes codes,
     LabelEncoder.unique (s_values ytr) = Ok classes →
     LabelEncoder.encode_all classes (s_values ytr) = Ok codes →
     is_Ok (SMOTETomek_resample (RandomState 42) (asarray Xtr) codes)) →
  ∃ train_arr test_arr,
    initiate_data_transformation fs g train_path test_path
      = Ok (train_arr, test_arr, "artifacts/preprocessor.pkl") ∧
    length (a_data train_arr) = 7%nat ∧ length (a_data test_arr) = 7%nat ∧
    ∃ classes train_codes test_codes,
      LabelEncoder.unique (s_values ytr) = Ok classes ∧
      last (a_data train_arr) = Some train_codes ∧
      (∀ c, c ∈ train_codes →
         ∃ v, v ∈ s_values ytr ∧ LabelEncoder.encode classes v = Ok c) ∧
      last (a_data test_arr) = Some test_codes ∧
      Forall2 (λ v c, LabelEncoder.encode classes v = Ok c) (s_values yte) test_codes.
Proof.
  intros Htr Hte Hwf Hftr Hytr Hfte Hyte Hfit HXtr HXte [classes Hu] Hsub Hres.
  pose proof (unique_sorted_distinct _ _ Hu) as (_ & Hin & _).
  destruct (encode_all_known classes (s_values ytr)) as [codes_tr Hcodes_tr];
    [intros v; apply Hin|].
  destruct (encode_all_known classes (s_values yte)) as [codes_te Hcodes_te];
    [intros v Hv; by apply Hin, Hsub|].
  destruct (Hres classes codes_tr Hu Hcodes_tr) as [[Xr yr] HXr].
  destruct (resample_shape _ _ _ _ _ HXr) as (Hcols & Hrows & Hlabels).
  destruct (c_rows Xr yr Hrows) as [train_arr Htrain_arr].
  pose proof (preprocessor_shape _ _ _ HXtr) as Hshape_tr.
  pose proof (preprocessor_shape _ _ _ HXte) as Hshape_te.
  rewrite <- asarray_shape in Hshape_tr, Hshape_te.
  injection Hshape_tr as _ Hcols_tr. injection Hshape_te as Hrows_te Hcols_te.
  destruct (c_rows (asarray Xte) codes_te) as [test_arr Htest_arr].
  { rewrite Hrows_te, (encode_all_length _ _ _ Hcodes_te).
    destruct (drop_Ok _ _ _ Hfte) as [-> _]. symmetry.
    apply (Hwf (target_column_name, yte)). by apply getitem_elem_of. }
  exists train_arr, test_arr. split.
  - apply initiate_Ok. split; [|done].
    exists (mkStages tr_df te_df ftr fte ytr yte st Xtr Xte classes codes_tr codes_te
              (Xr, yr)).
    repeat split; assumption.
  - apply c_Ok in Htrain_arr as (_ & _ & Hdata_tr).
    apply c_Ok in Htest_arr as (_ & _ & Hdata_te).
    split; [rewrite Hdata_tr, length_app; simpl; lia|].
    split; [rewrite Hdata_te, length_app; simpl; lia|].
    exists classes, yr, codes_te.
    split; [done|]. split; [by rewrite Hdata_tr, last_snoc|].
    split; [intros c Hc; eapply encode_all_subset; [done | by apply Hlabels]|].
    split; [by rewrite Hdata_te, last_snoc | by apply encode_all_Ok].
Qed.

End shapes.

Lemma Run_test_split fs g train_path test_path s train_arr test_arr :
  Run fs g train_path test_path s train_arr test_arr →
  test_split fs train_path test_path = Ok test_arr.
Proof.
  intros (Hr1 & Hr2 & Hd1 & Hg1 & Hd2 & Hg2 & Hfit & Ht1 & Ht2 & Hu & He1 & He2
          & Hres & Hc1 & Hc2).
  unfold test_split.
  apply bind_Ok. exists (train_df s). split; [by apply read_csv_Ok|].
  apply bind_Ok. exists (test_df s). split; [by apply read_csv_Ok|].
  apply bind_Ok. exists (train_features s). split; [done|].
  apply bind_Ok. exists (train_target s). split; [done|].
  apply bind_Ok. exists (test_features s). split; [done|].
  apply bind_Ok. exists (test_target s). split; [done|].
  apply bind_Ok. exists (fitted_obj s). split; [done|].
  apply bind_Ok. exists (test_matrix s). split; [done|].
  apply bind_Ok. exists (target_classes s). split; [done|].
  apply bind_Ok. exists (test_codes s). split; [done|]. done.
Qed.

End driver.

Section rebalancing.
Context {L : Sklearn}.
Import DataTransformation.

Lemma test_split_rebalancer rng' seed' resample' fs train_path test_path :
  @test_split (with_rebalancer L rng' seed' resample') fs train_path test_path
  = test_split fs train_path test_path.
Proof. reflexivity. Qed.

(** C6.  The test matrix has one row per row of the test input: its last
    column holds the codes of the test targets in their order, its other
    columns are what the fitted preprocessor makes of the test features; and
    it is the same whatever rebalancer the training split goes through. *)
Theorem test_split_is_not_rebalanced (fs : gmap string DataFrame) (g : rng)
    (train_path test_path : string) (te_df : DataFrame) (yte : Series)
    (train_arr test_arr : ndarray) (p : string) :
  fs !! test_path = Some te_df →
  getitem te_df target_column_name = Ok yte →
  frame_wf te_df →
  initiate_data_transformation fs g train_path test_path = Ok (train_arr, test_arr, p) →
  a_nrows test_arr = df_nrows te_df ∧
  (∃ tr_df ftr fte st Xte classes codes,
     fs !! train_path = Some tr_df ∧
     drop tr_df [target_column_name] = Ok ftr ∧
     est_fit preprocessor (Frame ftr) = Ok st ∧
     drop te_df [target_column_name] = Ok fte ∧
     est_transform preprocessor st (Frame fte) = Ok Xte ∧
     a_data test_arr = a_data (asarray Xte) ++ [codes] ∧
     length codes = df_nrows te_df ∧
     Forall2 (λ v c, LabelEncoder.encode classes v = Ok c) (s_values yte) codes) ∧
  (∀ rng' seed' resample' g' train_arr' test_arr' p',
     @initiate_data_transformation (with_rebalancer L rng' seed' resample')
       fs g' train_path test_path = Ok (train_arr', test_arr', p') →
     test_arr' = test_arr).
Proof.
  intros Hte Hyte Hwf [[s Hs] _]%initiate_Ok.
  pose proof (Run_test_split _ _ _ _ _ _ _ Hs) as Hsplit.
  destruct Hs as (Hr1 & Hr2 & Hd1 & Hg1 & Hd2 & Hg2 & Hfit & Ht1 & Ht2 & Hu & He1 & He2
                  & Hres & Hc1 & Hc2).
  assert (test_df s = te_df) as E by congruence. rewrite E in *.
  assert (test_target s = yte) as E' by congruence. rewrite E' in *.
  assert (length (test_codes s) = df_nrows te_df) as Hlen.
  { rewrite (encode_all_length _ _ _ He2).
    apply (Hwf (target_column_name, yte)). by apply getitem_elem_of. }
  pose proof (c_Ok _ _ _ Hc2) as (Hrows & Hn & Hdata).
  split; [congruence|]. split.
  - exists (train_df s), (train_features s), (test_features s), (fitted_obj s),
      (test_matrix s), (target_classes s), (test_codes s).
    repeat split; try done. by apply encode_all_Ok.
  - intros rng' seed' resample' g' train_arr' test_arr' p' [[s' Hs'] _]%initiate_Ok.
    apply Run_test_split in Hs'. rewrite test_split_rebalancer in Hs'.
    congruence.
Qed.

End rebalancing.

(** * The claims on the sample data *)

Section sample_runs.
Import DataTransformation.
Local Open Scope string_scope.

Lemma sample_library_keeps_shape : @KeepsShape Sample.library.
Proof.
  split.
  - intros st X Y [= <-]. apply asarray_shape.
  - intros st X Y [= <-]. apply asarray_shape.
  - intros r X y X' y'. simpl. case_decide; [|done]. by intros [= <- <-].
Qed.

Lemma sample_has_columns (n : nat) (readings types failures : list value) :
  has_columns (Sample.dataset n readings types failures).
Proof.
  intros k Hk%list_elem_of_In. apply list_elem_of_In. simpl in *.
  repeat (destruct Hk as [<-|Hk]; [tauto|]). destruct Hk.
Qed.

Lemma sample_test_wf : frame_wf Sample.test.
Proof.
  intros p Hp%list_elem_of_In. simpl in Hp.
  repeat (destruct Hp as [<-|Hp]; [reflexivity|]). destruct Hp.
Qed.

(** C1, as stated, fails: both files hold the seven columns, and the call
    raises, whatever the library estimators do, because the test split has
    the target value "Power Failure", which the training split lacks. *)
Lemma driver_raises_on_unseen_target :
  has_columns Sample.train ∧ has_columns Sample.test_unseen ∧
  Sample.files !! "train.csv" = Some Sample.train ∧
  Sample.files !! "test_unseen.csv" = Some Sample.test_unseen ∧
  ∀ (L : Sklearn) (g : @rng L),
    is_Raise (@initiate_data_transformation L Sample.files g "train.csv" "test_unseen.csv").
Proof.
  split; [apply sample_has_columns|]. split; [apply sample_has_columns|].
  assert (Sample.files !! "train.csv" = Some Sample.train) as Htr
    by (vm_compute; reflexivity).
  assert (Sample.files !! "test_unseen.csv" = Some Sample.test_unseen) as Hte
    by (vm_compute; reflexivity).
  split; [exact Htr|]. split; [exact Hte|].
  intros L g.
  eapply (initiate_raises_unseen _ _ _ _ _ _ _ _ (VStr "Power Failure") Htr Hte).
  - reflexivity.
  - reflexivity.
  - apply list_elem_of_In. simpl. auto.
  - intros Hin%list_elem_of_In. simpl in Hin.
    repeat (destruct Hin as [Hin|Hin]; [discriminate Hin|]). destruct Hin.
Qed.

(** The sample files, with the sample library. *)
Lemma driver_returns_seven_columns_witness :
  ∃ train_arr test_arr,
    @initiate_data_transformation Sample.library Sample.files 0 "train.csv" "test.csv"
      = Ok (train_arr, test_arr, "artifacts/preprocessor.pkl") ∧
    length (a_data train_arr) = 7%nat ∧ length (a_data test_arr) = 7%nat ∧
    last (a_data test_arr) = Some [VNum 1; VNum 0].
Proof.
  destruct (@driver_returns_seven_columns Sample.library sample_library_keeps_shape
              Sample.files 0 "train.csv" "test.csv" Sample.train Sample.test
              _ _ _ _ _ _ _
              ltac:(vm_compute; reflexivity) ltac:(vm_compute; reflexivity)
              sample_test_wf
              ltac:(reflexivity) ltac:(reflexivity) ltac:(reflexivity) ltac:(reflexivity)
              ltac:(reflexivity) ltac:(reflexivity) ltac:(reflexivity))
    as (train_arr & test_arr & Hrun & Htrain & Htest & classes & trc & tec & Hu & _ & _
        & Hlast & Hcodes).
  - by eexists.
  - intros v Hv%list_elem_of_In. apply list_elem_of_In. simpl in *.
    repeat (destruct Hv as [<-|Hv]; [tauto|]). destruct Hv.
  - intros classes codes _ Hlen%encode_all_length. simpl.
    rewrite decide_True by (by rewrite Hlen). by eexists.
  - exists train_arr, test_arr. repeat split; try assumption.
    rewrite Hlast. f_equal. vm_compute in Hu. injection Hu as <-.
    apply encode_all_Ok in Hcodes. vm_compute in Hcodes. congruence.
Defined.

(** The sample files: the test targets are coded 1, 0 by the classes of the
    training split; the split with "Power Failure" makes the call raise. *)
Lemma target_encoder_is_fitted_on_train_witness :
  (∃ train_arr test_arr p classes,
     @initiate_data_transformation Sample.library Sample.files 0 "train.csv" "test.csv"
       = Ok (train_arr, test_arr, p) ∧
     sorted_distinct
       [VStr "No Failure"; VStr "Heat Dissipation Failure"; VStr "No Failure"] classes ∧
     last (a_data test_arr) = Some [VNum 1; VNum 0]) ∧
  is_Raise (@initiate_data_transformation Sample.library Sample.files 0
              "train.csv" "test_unseen.csv").
Proof.
  assert (Sample.files !! "train.csv" = Some Sample.train) as Htr
    by (vm_compute; reflexivity).
  split.
  - destruct (@target_encoder_is_fitted_on_train Sample.library Sample.files 0
                "train.csv" "test.csv" Sample.train Sample.test _ _ Htr
                ltac:(vm_compute; reflexivity) ltac:(reflexivity) ltac:(reflexivity))
      as [Hreturned _].
    destruct (@initiate_data_transformation Sample.library Sample.files 0
                "train.csv" "test.csv") as [[[train_arr test_arr] p]|e] eqn:Hrun;
      [|vm_compute in Hrun; discriminate Hrun].
    destruct (Hreturned train_arr test_arr p eq_refl)
      as (classes & codes & Hfit & Hsorted & _ & Hcodes & _ & Hlast).
    exists train_arr, test_arr, p, classes. repeat split; try apply Hsorted.
    rewrite Hlast. f_equal. vm_compute in Hfit. injection Hfit as <-.
    vm_compute in Hcodes. congruence.
  - apply (@target_encoder_is_fitted_on_train Sample.library Sample.files 0
             "train.csv" "test_unseen.csv" Sample.train Sample.test_unseen _ _ Htr
             ltac:(vm_compute; reflexivity) ltac:(reflexivity) ltac:(reflexivity)).
    exists (VStr "Power Failure"). split.
    + apply list_elem_of_In. simpl. auto.
    + intros Hin%list_elem_of_In. simpl in Hin.
      repeat (destruct Hin as [Hin|Hin]; [discriminate Hin|]). destruct Hin.
Defined.

(** The column "UDI" of the sample data is dropped; the sample machines lack
    "Air temperature K". *)
Lemma router_concatenates_named_columns_witness :
  (∃ df', drop Sample.train [KName "UDI"] = Ok df' ∧
     est_fit (@preprocessor Sample.library) (Frame df')
     = est_fit (@preprocessor Sample.library) (Frame Sample.train)) ∧
  is_Raise (est_fit (@preprocessor Sample.library) (Frame Sample.machines)).
Proof.
  destruct (@router_concatenates_named_columns Sample.library)
    as (_ & _ & Hdropped & Hmissing).
  split.
  - eexists. split; [reflexivity|].
    apply (Hdropped Sample.train (KName "UDI")); [|reflexivity].
    intros Hin%list_elem_of_In. simpl in Hin.
    repeat (destruct Hin as [Hin|Hin]; [discriminate Hin|]). destruct Hin.
  - apply (Hmissing Sample.machines (KName "Air temperature K")).
    + apply list_elem_of_In. simpl. auto.
    + intros Hin%list_elem_of_In. simpl in Hin.
      repeat (destruct Hin as [Hin|Hin]; [discriminate Hin|]). destruct Hin.
Defined.

(** The sample test split has two rows, and so has its matrix. *)
Lemma test_split_is_not_rebalanced_witness :
  ∃ train_arr test_arr p,
    @initiate_data_transformation Sample.library Sample.files 0 "train.csv" "test.csv"
      = Ok (train_arr, test_arr, p) ∧
    a_nrows test_arr = 2%nat.
Proof.
  destruct (@initiate_data_transformation Sample.library Sample.files 0
              "train.csv" "test.csv") as [[[train_arr test_arr] p]|e] eqn:Hrun;
    [|vm_compute in Hrun; discriminate Hrun].
  exists train_arr, test_arr, p. split; [reflexivity|].
  apply (@test_split_is_not_rebalanced Sample.library Sample.files 0
           "train.csv" "test.csv" Sample.test _ train_arr test_arr p
           ltac:(vm_compute; reflexivity) ltac:(reflexivity) sample_test_wf Hrun).
Defined.

(** Another global generator and one file less: the same result. *)
Lemma driver_is_deterministic_witness :
  @initiate_data_transformation Sample.library Sample.files 0 "train.csv" "test.csv"
  = @initiate_data_transformation Sample.library
      (delete "test_unseen.csv" Sample.files) 7 "train.csv" "test.csv".
Proof.
  apply (@driver_is_deterministic Sample.library Sample.files
           (delete "test_unseen.csv" Sample.files) 0 7 "train.csv" "test.csv").
  - vm_compute. reflexivity.
  - vm_compute. reflexivity.
Defined.

End sample_runs.

(** * Further properties of the transformer *)

Section transformer_extras.
Import LabelEncodingTransformer.
Local Open Scope string_scope.

Lemma for_each_skip {S A} (xs : list A) (body : A → M S unit) (s : S) :
  (∀ x, x ∈ xs → body x s = (s, Ok tt)) → for_each xs body s = (s, Ok tt).
Proof.
  induction xs as [|x xs IH]; intros Hb; [done|].
  rewrite for_each_cons, Hb by left. apply IH. intros y Hy. apply Hb. by right.
Qed.

(** The keys [transform] looks up for the input [X]: the labels of a frame,
    the positions of an array. *)
Lemma encode_table_agree self self' X :
  match X with
  | Frame df => ∀ col, col ∈ columns df → encoders self !! col = encoders self' !! col
  | Array a =>
      ∀ i, (i < length (a_data a))%nat → encoders self !! KIdx i = encoders self' !! KIdx i
  end →
  encode_table self X = encode_table self' X.
Proof.
  destruct X as [df|a]; simpl; intros Hagree.
  - rewrite (for_each_ext _ (encode_frame_body self df) (encode_frame_body self' df));
      [done|].
    intros col s Hcol. unfold encode_frame_body. by rewrite Hagree.
  - rewrite (for_each_ext _ (encode_array_body self a) (encode_array_body self' a));
      [done|].
    intros i s Hi%elem_of_seq. unfold encode_array_body. rewrite Hagree; [done | lia].
Qed.

(** X1.  [transform] with no encoder under any key of the input returns a
    table equal to the input and never raises: so does a transformer that was
    never fitted, and one fitted on a frame (encoders under labels) given an
    array (columns by position). *)
Theorem transform_without_encoder_is_copy (self : t) (X : table) :
  match X with
  | Frame df => ∀ col, col ∈ columns df → encoders self !! col = None
  | Array a => ∀ i, (i < length (a_data a))%nat → encoders self !! KIdx i = None
  end →
  transformed self X = Ok X.
Proof.
  intros Hnone. rewrite transformed_eq. destruct X as [df|a]; simpl.
  - rewrite for_each_skip; [done|].
    intros col Hcol. unfold encode_frame_body. by rewrite Hnone.
  - rewrite for_each_skip; [done|].
    intros i Hi%elem_of_seq. unfold encode_array_body. rewrite Hnone; [done | lia].
Qed.

(** Fitted on the sample machines, applied to the array of their types. *)
Lemma transform_without_encoder_is_copy_witness :
  let self := (fit (Frame Sample.machines) init).1 in
  is_Some (encoders self !! KName "Type") ∧
  transformed self (Array Sample.types_array) = Ok (Array Sample.types_array).
Proof.
  intros self. split; [vm_compute; by eexists|].
  apply (transform_without_encoder_is_copy self (Array Sample.types_array)).
  intros i Hi. vm_compute. reflexivity.
Defined.

(** X2.  [transform] reads only the encoders stored under the keys of its
    input: two transformers that agree on them return the same result, so an
    encoder whose column is absent from the input is ignored (its absence is
    no error). *)
Theorem transform_ignores_other_encoders (self self' : t) (X : table) :
  match X with
  | Frame df => ∀ col, col ∈ columns df → encoders self !! col = encoders self' !! col
  | Array a =>
      ∀ i, (i < length (a_data a))%nat → encoders self !! KIdx i = encoders self' !! KIdx i
  end →
  transformed self X = transformed self' X.
Proof.
  intros Hagree. by rewrite !transformed_eq, (encode_table_agree self self' X).
Qed.

(** An unfitted encoder under a label the frame lacks would raise if it were
    used; it is not. *)
Lemma transform_ignores_other_encoders_witness :
  let self := (fit (Frame Sample.machines) init).1 in
  let self' := mk (<[KName "Other" := LabelEncoder.init]> (encoders self)) None in
  LabelEncoder.transform LabelEncoder.init [VStr "M"] = Raise NotFittedError ∧
  transformed self (Frame Sample.machines) = transformed self' (Frame Sample.machines).
Proof.
  intros self self'. split; [reflexivity|].
  apply (transform_ignores_other_encoders self self' (Frame Sample.machines)).
  intros col Hcol. symmetry. apply lookup_insert_ne.
  intros <-. unfold columns in Hcol. simpl in Hcol.
  repeat (apply elem_of_cons in Hcol as [Hcol|Hcol]; [discriminate|]).
  by apply elem_of_nil in Hcol.
Defined.

(** One iteration of [fit] writes the same entries whatever the transformer
    held before. *)
Lemma learn_body_union pre c m e0 oc oc' :
  learn_body pre c (mk (m ∪ e0) oc) =
  let '(s, r) := learn_body pre c (mk m oc') in (mk (encoders s ∪ e0) oc, r).
Proof.
  unfold learn_body. m_unfold. destruct (pre c) as [[y|]|e]; [|done|done].
  rewrite !learn_run. simpl.
  destruct (LabelEncoder.unique y); simpl; by rewrite insert_union_l.
Qed.

Lemma learn_loop_union pre cols m e0 oc oc' :
  for_each cols (learn_body pre) (mk (m ∪ e0) oc) =
  let '(s, r) := for_each cols (learn_body pre) (mk m oc') in
  (mk (encoders s ∪ e0) oc, r).
Proof.
  revert m oc'. induction cols as [|c rest IH]; intros m oc'; [done|].
  rewrite !for_each_cons, (learn_body_union pre c m e0 oc oc').
  destruct (learn_body pre c (mk m oc')) as [[m1 oc1] [[]|e]]; simpl; [|done].
  apply IH.
Qed.

Lemma learn_loop_columns pre cols self0 self r :
  for_each cols (learn_body pre) self0 = (self, r) →
  original_columns self = original_columns self0.
Proof.
  apply (for_each_invariant (λ s, original_columns s = original_columns self0)); [|done].
  intros c s s' r' _ Hs. unfold learn_body. m_unfold.
  destruct (pre c) as [[y|]|e]; try by intros [= <- _].
  rewrite learn_run. destruct (LabelEncoder.unique y); by intros [= <- _].
Qed.

(** [fit] on a transformer that holds encoders already, from [fit] on a new
    one. *)
Lemma fit_from_init X self0 :
  fit X self0 =
  let '(new, r) := fit X init in
  (mk (encoders new ∪ encoders self0)
      (match X with
       | Frame _ => original_columns self0
       | Array _ => original_columns new
       end), r).
Proof.
  destruct self0 as [e0 oc0]. destruct X as [df|a]; simpl.
  - rewrite !fit_frame_learn. unfold init.
    pose proof (learn_loop_union (frame_pre df) (columns df) ∅ e0 oc0 None) as Hu.
    rewrite (left_id_L ∅ (∪)) in Hu. rewrite Hu.
    by destruct (for_each (columns df) (learn_body (frame_pre df)) (mk ∅ None)).
  - rewrite !fit_array_learn. simpl.
    set (names := Some _).
    pose proof (learn_loop_union (array_pre a) (KIdx <$> seq 0 (length (a_data a)))
                  ∅ e0 names names) as Hu.
    rewrite (left_id_L ∅ (∪)) in Hu. rewrite Hu.
    destruct (for_each _ _ (mk ∅ names)) as [s r] eqn:Hs.
    apply learn_loop_columns in Hs. simpl in Hs. by rewrite Hs.
Qed.

(** X3.  [fit] on a transformer that was fitted before does what [fit] on a
    new one does, on top of what was there: it raises or returns as on a new
    one, the encoders it learns replace those stored under the same keys, and
    the other encoders stay.  The names of an array's columns are those of
    the latest array; a frame leaves them as they were. *)
Theorem refit_overrides_earlier_encoders (X : table) (self0 : t) :
  fit X self0 =
  ((mk (encoders (fit X init).1 ∪ encoders self0)
       (match X with
        | Frame _ => original_columns self0
        | Array _ => original_columns (fit X init).1
        end)),
   (fit X init).2).
Proof. rewrite fit_from_init. by destruct (fit X init). Qed.

(** X4.  [fit] is idempotent: a second [fit] on the same table ends as the
    first did, with the transformer in the same state, whether the first
    returned or raised. *)
Theorem fit_twice_same_state (X : table) (self0 self : t) (r : result unit) :
  fit X self0 = (self, r) → fit X self = (self, r).
Proof.
  rewrite (fit_from_init X self0), (fit_from_init X self).
  destruct (fit X init) as [new r']. intros [= <- <-]. simpl.
  rewrite (assoc_L (∪)), (idemp_L (∪)). by destruct X.
Qed.

Lemma fit_twice_same_state_witness :
  ∃ self, fit (Frame Sample.machines) init = (self, Ok tt) ∧
          fit (Frame Sample.machines) self = (self, Ok tt).
Proof.
  eexists. split; [reflexivity|].
  by apply (fit_twice_same_state (Frame Sample.machines) init).
Defined.

(** Where a raising loop of [fit] stopped. *)
Lemma learn_loop_Raise pre cols self0 self e :
  for_each cols (learn_body pre) self0 = (self, Raise e) →
  ∃ c, c ∈ cols ∧
    (pre c = Raise e ∨
     ∃ y, pre c = Ok (Some y) ∧ LabelEncoder.unique y = Raise e ∧
          encoders self !! c = Some LabelEncoder.init).
Proof.
  revert self0. induction cols as [|c rest IH]; intros self0; [done|].
  rewrite for_each_cons.
  destruct (learn_body pre c self0) as [self1 [[]|e1]] eqn:Hc.
  - intros (k & Hk & Hres)%IH. exists k. split; [by right | done].
  - intros [= -> ->]. exists c. split; [by left|].
    revert Hc. unfold learn_body. m_unfold.
    destruct (pre c) as [[y|]|e2]; [| done | intros [= <- <-]; by left].
    rewrite learn_run. destruct (LabelEncoder.unique y) as [|e2] eqn:Hu; [done|].
    intros [= <- <-]. right. exists y. simpl. by rewrite lookup_insert_eq.
Qed.

(** X5.  A [fit] that raises has stored a new, unfitted encoder for the
    column it stopped at ([self.encoders[col] = LabelEncoder()] comes before
    the encoder is fitted), so the transformer is left in a state in which
    [transform] of the same table raises as well. *)
Theorem failed_fit_leaves_unfitted_encoder (X : table) (self0 self : t) (e : exn) :
  distinct_labels X → fit X self0 = (self, Raise e) →
  (∃ k y, column X k = Some y ∧ LabelEncoder.unique y = Raise e ∧
          encoders self !! k = Some LabelEncoder.init) ∧
  is_Raise (transformed self X).
Proof.
  intros Hnd Hfit.
  assert (∃ k y, column X k = Some y ∧ LabelEncoder.unique y = Raise e ∧
                 encoders self !! k = Some LabelEncoder.init) as Hstop.
  { destruct X as [df|a]; simpl in *.
    - rewrite fit_frame_learn in Hfit.
      apply learn_loop_Raise in Hfit as (c & Hc & Hres).
      apply list_elem_of_fmap in Hc as ([c' s] & -> & Hs). simpl in Hres.
      unfold frame_pre in Hres. rewrite (getitem_NoDup _ _ _ Hnd Hs) in Hres.
      simpl in Hres. destruct Hres as [|(y & [= Hy] & Hu & Henc)]; [done|].
      exists c', y. rewrite (getitem_NoDup _ _ _ Hnd Hs).
      destruct (is_categorical (s_dtype s)); [|done]. by injection Hy as <-.
    - rewrite fit_array_learn in Hfit.
      apply learn_loop_Raise in Hfit as (c & Hc & Hres).
      apply list_elem_of_fmap in Hc as (i & -> & Hi%elem_of_seq). simpl in Hres.
      destruct Hres as [|(y & [= Hy] & Hu & Henc)]; [done|].
      destruct (is_number (a_dtype a)); [done|]. injection Hy as <-.
      destruct (lookup_lt_is_Some_2 (a_data a) i) as [col Hcol]; [lia|].
      exists (KIdx i), col. unfold getcol in Hu. by rewrite Hcol in Hu. }
  split; [done|]. destruct Hstop as (k & y & Hcol & _ & Henc).
  destruct (transformed self X) as [Y|e'] eqn:HY; [|by eexists].
  apply transformed_Ok, encode_table_Ok in HY.
  by destruct (encodes_column _ _ _ _ _ _ HY Henc Hcol) as (codes & ? & _).
Qed.

(** A column that mixes text and numbers. *)
Lemma failed_fit_leaves_unfitted_encoder_witness :
  let X := Frame (mkFrame 2 [(KName "Type", mkSeries dt_object [VStr "M"; VNum 1])]) in
  ∃ self e, fit X init = (self, Raise e) ∧
    encoders self !! KName "Type" = Some LabelEncoder.init ∧
    is_Raise (transformed self X).
Proof.
  intros X. eexists _, _. split; [reflexivity|]. split; [reflexivity|].
  refine (proj2 (failed_fit_leaves_unfitted_encoder X init _ _ _ eq_refl)).
  simpl. unfold columns. simpl. apply NoDup_singleton.
Defined.

(** X6.  The encoding loses no value: every code [transform] writes is the
    position, in the classes of the column's encoder, of the value it
    replaces, so looking the codes up in [classes_] gives the column back. *)
Theorem codes_index_the_classes (self : t) (X Y : table) (k : key)
    (classes y : list value) :
  transformed self X = Ok Y →
  encoders self !! k = Some (LabelEncoder.mk (Some classes)) →
  column X k = Some y →
  ∃ codes, column Y k = Some codes ∧
    Forall2 (λ v c, ∃ i : nat, c = VNum (Z.of_nat i) ∧ classes !! i = Some v) y codes.
Proof.
  intros HY%transformed_Ok%encode_table_Ok Henc Hcol.
  destruct (encodes_column _ _ _ _ _ _ HY Henc Hcol) as (codes & Hcodes & HYk).
  exists codes. split; [done|].
  apply transform_Ok_known in Hcodes as (classes' & [= <-] & Hall & _).
  eapply Forall2_impl; [exact Hall|]. simpl.
  intros v c (i & Hi%index_of_Some & ->)%encode_Ok. eauto.
Qed.

(** The types of the sample machines, M L M, become 1 0 1; the classes are
    L, M. *)
Lemma codes_index_the_classes_witness :
  let X := Frame Sample.machines in
  let self := (fit X init).1 in
  ∃ Y, transformed self X = Ok Y ∧
    column Y (KName "Type") = Some [VNum 1; VNum 0; VNum 1] ∧
    Forall2 (λ v c, ∃ i : nat, c = VNum (Z.of_nat i) ∧ [VStr "L"; VStr "M"] !! i = Some v)
      [VStr "M"; VStr "L"; VStr "M"] [VNum 1; VNum 0; VNum 1].
Proof.
  intros X self. eexists. split; [reflexivity|]. split; [reflexivity|].
  destruct (codes_index_the_classes self X _ (KName "Type") [VStr "L"; VStr "M"]
              [VStr "M"; VStr "L"; VStr "M"] eq_refl eq_refl eq_refl)
    as (codes & Hcodes & Hall).
  vm_compute in Hcodes. by injection Hcodes as <-.
Defined.

End transformer_extras.

(** * Further properties of the driver *)

Section driver_extras.
Context `{Sklearn}.
Import DataTransformation.

(** X7.  The training file is read first and the test file second, before
    anything else is done: the call reports the first of the two that is
    missing, as a [CustomException] around the error of [read_csv], whatever
    the files hold and whatever the library estimators would do. *)
Theorem driver_reports_missing_file (fs : gmap string DataFrame) (g : rng)
    (train_path test_path missing : string) :
  (fs !! train_path = None ∧ missing = train_path) ∨
  (is_Some (fs !! train_path) ∧ fs !! test_path = None ∧ missing = test_path) →
  initiate_data_transformation fs g train_path test_path
  = Raise (CustomException (FileNotFoundError missing)).
Proof.
  unfold initiate_data_transformation, read_csv.
  intros [[-> ->]|([tr ->] & -> & ->)]; reflexivity.
Qed.

(** X8.  Both splits must hold the target column: when the training frame
    (with distinct labels) or the test frame lacks "Failure Type", the call
    raises a [CustomException] around the [KeyError] of that label, and it
    does so before any estimator is fitted. *)
Theorem driver_requires_target_column (fs : gmap string DataFrame) (g : rng)
    (train_path test_path : string) (tr te : DataFrame) :
  fs !! train_path = Some tr → fs !! test_path = Some te →
  NoDup (columns tr) →
  target_column_name ∉ columns tr ∨ target_column_name ∉ columns te →
  initiate_data_transformation fs g train_path test_path
  = Raise (CustomException (KeyError "Failure Type"%string)).
Proof.
  intros Htr Hte Hnd Hmissing.
  unfold initiate_data_transformation, read_csv. rewrite Htr, Hte. simpl.
  assert (∀ df, target_column_name ∉ columns df →
            drop df [target_column_name] = Raise (KeyError "Failure Type"%string)) as Hdrop.
  { intros df Hn. unfold drop. rewrite filter_cons, decide_True by done. done. }
  destruct (decide (target_column_name ∈ columns tr)) as [Hin|Hn];
    [|rewrite (Hdrop tr) by done; reflexivity].
  destruct Hmissing as [|Hn]; [done|].
  apply list_elem_of_fmap in Hin as ([c s] & Hc & Hs). simpl in Hc. subst c.
  rewrite (getitem_NoDup _ _ _ Hnd Hs).
  assert (is_Ok (drop tr [target_column_name])) as [ftr ->].
  { unfold drop. rewrite filter_cons, decide_False, filter_nil; [by eexists|].
    intros Hn'. apply Hn'. apply list_elem_of_fmap. by exists (target_column_name, s). }
  simpl. rewrite (Hdrop te) by done. reflexivity.
Qed.

(** X9.  Nothing of the test split reaches the training matrix: two calls
    that read the same training frame and both return give the same
    training matrix, whatever their test files and the state of the global
    generator. *)
Theorem train_matrix_ignores_test_file (fs fs' : gmap string DataFrame) (g g' : rng)
    (train_path test_path train_path' test_path' : string)
    (train_arr test_arr train_arr' test_arr' : ndarray) (p p' : string) :
  fs !! train_path = fs' !! train_path' →
  initiate_data_transformation fs g train_path test_path
    = Ok (train_arr, test_arr, p) →
  initiate_data_transformation fs' g' train_path' test_path'
    = Ok (train_arr', test_arr', p') →
  train_arr = train_arr'.
Proof.
  intros Hsame [(s & Hs) _]%initiate_Ok [(s' & Hs') _]%initiate_Ok.
  destruct Hs as (Htr & _ & Hf & Hy & _ & _ & Hfit & Hm & _ & Hu & Hc & _ & Hr & Ha & _).
  destruct Hs' as (Htr' & _ & Hf' & Hy' & _ & _ & Hfit' & Hm' & _ & Hu' & Hc' & _ & Hr'
                   & Ha' & _).
  assert (train_df s' = train_df s) as Hdf by congruence.
  rewrite Hdf in Hf', Hy'.
  assert (train_features s' = train_features s) as Hfe by congruence.
  assert (train_target s' = train_target s) as Hta by congruence.
  rewrite Hfe in Hfit', Hm'. rewrite Hta in Hu', Hc'.
  assert (fitted_obj s' = fitted_obj s) as Hst by congruence.
  rewrite Hst in Hm'.
  assert (train_matrix s' = train_matrix s) as Hma by congruence.
  assert (target_classes s' = target_classes s) as Hcl by congruence.
  rewrite Hcl in Hc'. rewrite Hma in Hr'.
  assert (train_codes s' = train_codes s) as Hco by congruence.
  rewrite Hco in Hr'.
  assert (resampled s' = resampled s) as Hre by congruence.
  rewrite Hre in Ha'. congruence.
Qed.

(** Two statements that raise the same error or both return. *)
Lemma bind_both {A A' B} (m : result A) (m' : result A')
    (k : A → result B) (k' : A' → result B) :
  (∀ e, m = Raise e ↔ m' = Raise e) →
  (∀ a a', m = Ok a → m' = Ok a' → k a = k' a') →
  m ≫= k = m' ≫= k'.
Proof.
  intros He Hk. destruct m as [a|e], m' as [a'|e']; simpl.
  - by apply Hk.
  - by pose proof (proj2 (He e') eq_refl).
  - by pose proof (proj1 (He e) eq_refl).
  - by pose proof (proj1 (He e) eq_refl) as [= <-].
Qed.

Lemma getitem_KeyError df k l :
  getitem df k = Raise (KeyError l) ↔ (k ∉ columns df) ∧ l = label_text k.
Proof.
  split.
  - unfold getitem.
    destruct (filter (λ p, p.1 = k) (df_data df)) as [|p [|q rest]] eqn:Hf; [|done|done].
    intros [= <-]. split; [|done].
    intros ([c s] & -> & Hin)%list_elem_of_fmap.
    assert ((c, s) ∈ filter (λ p, p.1 = c) (df_data df)) as Hp
      by (by apply list_elem_of_filter).
    simpl in Hf. rewrite Hf in Hp. by apply elem_of_nil in Hp.
  - intros [Hn ->]. by apply getitem_absent.
Qed.

Lemma drop_one_Raise df k e :
  drop df [k] = Raise e ↔ (k ∉ columns df) ∧ e = KeyError (label_text k).
Proof.
  unfold drop. rewrite filter_cons, filter_nil.
  destruct (decide (k ∉ columns df)) as [Hn|Hin]; split.
  - by intros [= <-].
  - by intros [_ ->].
  - done.
  - by intros [? _].
Qed.

(** Frames with the same rows under the labels [cols] give the same
    selection. *)
Lemma select_agree df df' cols :
  df_nrows df' = df_nrows df →
  (∀ c, c ∈ cols → getitem df' c = getitem df c) →
  select (Frame df') cols = select (Frame df) cols.
Proof.
  intros Hrows Hcols. simpl. rewrite Hrows. f_equal.
  induction cols as [|c rest IH]; [done|]. simpl.
  rewrite Hcols by left. rewrite IH; [done|]. intros k Hk. apply Hcols. by right.
Qed.

Lemma preprocessor_agree X X' :
  select X' numerical_columns = select X numerical_columns →
  select X' categorical_columns = select X categorical_columns →
  fit_transform preprocessor X' = fit_transform preprocessor X ∧
  ∀ st, est_transform preprocessor st X' = est_transform preprocessor st X.
Proof.
  intros Hn Hc.
  assert (∀ st, est_transform preprocessor st X' = est_transform preprocessor st X)
    as Htransform by (intros st; by rewrite !preprocessor_transform, Hn, Hc).
  split; [|done]. unfold fit_transform.
  rewrite !preprocessor_fit, Hn, Hc.
  apply bind_both; [done|]. intros st st' Hst. rewrite Hst. intros [= <-].
  by rewrite Htransform.
Qed.

(** X10.  The driver reads its two frames through the seven labels it names
    and the number of rows only: frames that hold the same column under each
    of these labels give the same result, error included, whatever other
    columns they have and in whatever order the columns come. *)
Theorem driver_reads_named_columns_only (fs fs' : gmap string DataFrame) (g : rng)
    (train_path test_path train_path' test_path' : string) (tr te tr' te' : DataFrame) :
  fs !! train_path = Some tr → fs !! test_path = Some te →
  fs' !! train_path' = Some tr' → fs' !! test_path' = Some te' →
  df_nrows tr' = df_nrows tr → df_nrows te' = df_nrows te →
  (∀ c, c ∈ numerical_columns ++ categorical_columns ++ [target_column_name] →
     getitem tr' c = getitem tr c ∧ getitem te' c = getitem te c) →
  initiate_data_transformation fs' g train_path' test_path'
  = initiate_data_transformation fs g train_path test_path.
Proof.
  intros Htr Hte Htr' Hte' Hrows_tr Hrows_te Hcols.
  assert (∀ df df' : DataFrame,
            getitem df' target_column_name = getitem df target_column_name →
            ∀ e, drop df' [target_column_name] = Raise e
                 ↔ drop df [target_column_name] = Raise e) as Hdrop.
  { intros df df' Hy e. rewrite !drop_one_Raise.
    assert (∀ d, target_column_name ∉ columns d ↔
              getitem d target_column_name
              = Raise (KeyError (label_text target_column_name))) as Hkey
      by (intros d; rewrite getitem_KeyError; tauto).
    by rewrite !Hkey, Hy. }
  assert (∀ df df' f f' : DataFrame,
            df_nrows df' = df_nrows df →
            (∀ c, c ∈ numerical_columns ++ categorical_columns ++ [target_column_name] →
               getitem df' c = getitem df c) →
            drop df' [target_column_name] = Ok f' →
            drop df [target_column_name] = Ok f →
            ∀ cols, cols = numerical_columns ∨ cols = categorical_columns →
              select (Frame f') cols = select (Frame f) cols) as Hselect.
  { intros df df' f f' Hrows Hsame Hf' Hf cols Hcase.
    apply select_agree.
    - apply drop_Ok in Hf as [-> _], Hf' as [-> _]. done.
    - intros c Hc.
      assert (c ≠ target_column_name) as Hne
        by (intros ->; destruct Hcase as [->| ->];
            apply list_elem_of_In in Hc; simpl in Hc;
            repeat (destruct Hc as [Hc|Hc]; [discriminate Hc|]); destruct Hc).
      rewrite (getitem_drop _ _ _ _ Hf' Hne), (getitem_drop _ _ _ _ Hf Hne).
      apply Hsame. destruct Hcase as [->| ->]; rewrite !elem_of_app; auto. }
  assert (target_column_name ∈
            numerical_columns ++ categorical_columns ++ [target_column_name]) as Ht
    by (rewrite !elem_of_app, list_elem_of_singleton; auto).
  unfold initiate_data_transformation, read_csv. rewrite Htr, Hte, Htr', Hte'.
  f_equal.
  apply bind_both; [done|]. intros ? ? [= <-] [= <-].
  apply bind_both; [done|]. intros ? ? [= <-] [= <-].
  apply bind_both; [done|]. intros obj ? Hobj. rewrite Hobj. intros [= <-].
  injection Hobj as <-.
  apply bind_both; [apply Hdrop, Hcols, Ht|]. intros ftr' ftr Hftr' Hftr.
  rewrite (proj1 (Hcols _ Ht)).
  apply bind_both; [done|]. intros ytr ? Hytr. rewrite Hytr. intros [= <-].
  apply bind_both; [apply Hdrop, Hcols, Ht|]. intros fte' fte Hfte' Hfte.
  rewrite (proj2 (Hcols _ Ht)).
  apply bind_both; [done|]. intros yte ? Hyte. rewrite Hyte. intros [= <-].
  destruct (preprocessor_agree (Frame ftr) (Frame ftr')) as [Hfit _].
  { eapply Hselect; [exact Hrows_tr | intros; by apply Hcols | done | done | by left]. }
  { eapply Hselect; [exact Hrows_tr | intros; by apply Hcols | done | done | by right]. }
  destruct (preprocessor_agree (Frame fte) (Frame fte')) as [_ Htransform].
  { eapply Hselect; [exact Hrows_te | intros; by apply Hcols | done | done | by left]. }
  { eapply Hselect; [exact Hrows_te | intros; by apply Hcols | done | done | by right]. }
  rewrite Hfit.
  apply bind_both; [done|]. intros fitted_train ? Hft. rewrite Hft. intros [= <-].
  by rewrite Htransform.
Qed.

(** X11.  In the categorical pipeline the transformer is fitted on what the
    imputer returns, which is an array: it takes the array branch of [fit],
    and every encoder it learns is stored under a column position, none under
    a label such as "Type". *)
Theorem cat_pipeline_encodes_by_position (X : table) (st : fitted cat_pipeline) :
  est_fit cat_pipeline X = Ok st →
  ∃ A, SimpleImputer_transform st.1 X = Ok A ∧
    LabelEncodingTransformer.fit (Array A) LabelEncodingTransformer.init
      = (st.2.1, Ok tt) ∧
    ∀ k, is_Some (LabelEncodingTransformer.encoders st.2.1 !! k) →
      ∃ i, k = KIdx i ∧ (i < length (a_data A))%nat.
Proof.
  change (est_fit cat_pipeline X)
    with (s1 ← SimpleImputer_fit most_frequent X;
          X1 ← Array <$> SimpleImputer_transform s1 X;
          s2 ← (self ← est_fit LabelEncodingTransformer_step X1;
                X2 ← LabelEncodingTransformer.transformed self X1;
                s3 ← StandardScaler_fit false X2;
                Ok (self, s3));
          Ok (s1, s2)).
  intros Hfit. apply bind_Ok in Hfit as (s1 & _ & Hfit).
  apply bind_Ok in Hfit as (X1 & HX1 & Hfit).
  apply fmap_Ok in HX1 as (A & HA & ->).
  apply bind_Ok in Hfit as (s2 & Hs2 & [= <-]).
  apply bind_Ok in Hs2 as (self & Hself & Hs2).
  apply bind_Ok in Hs2 as (X2 & _ & Hs2).
  apply bind_Ok in Hs2 as (s3 & _ & [= <-]).
  exists A. split; [done|]. simpl in Hself |- *.
  destruct (LabelEncodingTransformer.fit_array A LabelEncodingTransformer.init)
    as [self' [[]|e]] eqn:Hrun; [|done].
  injection Hself as ->. split; [done|].
  intros k Hk. destruct (fit_array_Ok A _ _ Hrun k) as [_ Hout].
  destruct k as [name|i].
  - rewrite Hout in Hk by done. simpl in Hk. rewrite lookup_empty in Hk.
    by destruct Hk.
  - exists i. split; [done|].
    destruct (decide (i < length (a_data A))%nat) as [|Hge]; [done|].
    rewrite Hout in Hk.
    + simpl in Hk. rewrite lookup_empty in Hk. by destruct Hk.
    + intros j [= <-]. lia.
Qed.

End driver_extras.

(** ** The further properties on the sample data *)

Section sample_extras.
Import DataTransformation.
Local Open Scope string_scope.

(** Neither file exists: the training path is reported; only the test file
    is missing: the test path is. *)
Lemma driver_reports_missing_file_witness :
  @initiate_data_transformation Sample.library Sample.files 0 "absent.csv" "none.csv"
    = Raise (CustomException (FileNotFoundError "absent.csv")) ∧
  @initiate_data_transformation Sample.library Sample.files 0 "train.csv" "none.csv"
    = Raise (CustomException (FileNotFoundError "none.csv")).
Proof.
  split.
  - apply (@driver_reports_missing_file Sample.library Sample.files 0
             "absent.csv" "none.csv" "absent.csv").
    left. split; [vm_compute; reflexivity | reflexivity].
  - apply (@driver_reports_missing_file Sample.library Sample.files 0
             "train.csv" "none.csv" "none.csv").
    right. split; [vm_compute; by eexists|]. split; [vm_compute; reflexivity | reflexivity].
Defined.

(** The sample machines have no column "Failure Type". *)
Lemma driver_requires_target_column_witness :
  @initiate_data_transformation Sample.library
    (<["machines.csv" := Sample.machines]> Sample.files) 0 "train.csv" "machines.csv"
  = Raise (CustomException (KeyError "Failure Type")).
Proof.
  apply (@driver_requires_target_column Sample.library
           (<["machines.csv" := Sample.machines]> Sample.files) 0
           "train.csv" "machines.csv" Sample.train Sample.machines).
  - vm_compute. reflexivity.
  - vm_compute. reflexivity.
  - apply (bool_decide_unpack _). vm_compute. exact I.
  - right. apply (bool_decide_unpack _). vm_compute. exact I.
Defined.

(** The training split with the test split, and with itself as test split. *)
Lemma train_matrix_ignores_test_file_witness :
  ∃ train_arr test_arr test_arr' p p',
    @initiate_data_transformation Sample.library Sample.files 0 "train.csv" "test.csv"
      = Ok (train_arr, test_arr, p) ∧
    @initiate_data_transformation Sample.library Sample.files 7 "train.csv" "train.csv"
      = Ok (train_arr, test_arr', p') ∧
    a_nrows test_arr = 2%nat ∧ a_nrows test_arr' = 3%nat.
Proof.
  destruct (@initiate_data_transformation Sample.library Sample.files 0
              "train.csv" "test.csv") as [[[train_arr test_arr] p]|e] eqn:Hrun;
    [|vm_compute in Hrun; discriminate Hrun].
  destruct (@initiate_data_transformation Sample.library Sample.files 7
              "train.csv" "train.csv") as [[[train_arr' test_arr'] p']|e] eqn:Hrun';
    [|vm_compute in Hrun'; discriminate Hrun'].
  exists train_arr, test_arr, test_arr', p, p'.
  rewrite (@train_matrix_ignores_test_file Sample.library Sample.files Sample.files 0 7
             "train.csv" "test.csv" "train.csv" "train.csv"
             train_arr test_arr train_arr' test_arr' p p' eq_refl Hrun Hrun').
  split; [reflexivity|]. split; [reflexivity|].
  vm_compute in Hrun, Hrun'. injection Hrun as _ <- _. injection Hrun' as _ <- _.
  split; reflexivity.
Defined.

(** The sample files without "UDI" and with the columns in reverse order. *)
Lemma driver_reads_named_columns_only_witness :
  let train' := mkFrame 3 (reverse (tail (df_data Sample.train))) in
  let test' := mkFrame 2 (reverse (tail (df_data Sample.test))) in
  @initiate_data_transformation Sample.library
    {[ "a.csv" := train'; "b.csv" := test' ]} 0 "a.csv" "b.csv"
  = @initiate_data_transformation Sample.library Sample.files 0 "train.csv" "test.csv".
Proof.
  intros train' test'.
  apply (@driver_reads_named_columns_only Sample.library Sample.files
           {[ "a.csv" := train'; "b.csv" := test' ]} 0
           "train.csv" "test.csv" "a.csv" "b.csv" Sample.train Sample.test train' test').
  - vm_compute. reflexivity.
  - vm_compute. reflexivity.
  - vm_compute. reflexivity.
  - vm_compute. reflexivity.
  - reflexivity.
  - reflexivity.
  - intros c Hc%list_elem_of_In. simpl in Hc.
    repeat (destruct Hc as [<-|Hc]; [split; reflexivity|]). destruct Hc.
Defined.

(** The sample machines through the pipeline: an encoder is found at position 0,
    and none under "Type". *)
Lemma cat_pipeline_encodes_by_position_witness :
  ∃ st,
    est_fit (@cat_pipeline Sample.library) (Frame Sample.machines) = Ok st ∧
    LabelEncodingTransformer.encoders st.2.1 !! KName "Type" = None ∧
    is_Some (LabelEncodingTransformer.encoders st.2.1 !! KIdx 0).
Proof.
  eexists. split; [reflexivity|].
  destruct (@cat_pipeline_encodes_by_position Sample.library (Frame Sample.machines)
              _ eq_refl) as (A & _ & _ & Hkeys).
  split; [|vm_compute; by eexists].
  destruct (LabelEncodingTransformer.encoders _ !! KName "Type") as [enc|] eqn:Henc;
    [|reflexivity].
  destruct (Hkeys (KName "Type")) as (i & Hi & _); [by rewrite Henc | discriminate Hi].
Defined.

End sample_extras.
